(** * BlackRoad Go SDK: the resilient request executor

    A shallow embedding of [go/client.go] (configuration resolution in
    [NewClient] and the retry loop of [Client.request]) together with the
    error constructors of the Go [errors.go] and the Go standard library
    functions the client calls ([strings.TrimSuffix], [strconv.Atoi],
    [url.Values.Encode], [http.NewRequestWithContext], [bytes.Reader],
    [time.Duration] arithmetic). [int] and [time.Duration] are 64 bits wide.

    Effects are explicit: the environment variables are a finite map, the
    HTTP stack is an oracle answering each [Do], and [request] returns the
    list of the sends and sleeps it performed next to its result. *)

From Stdlib Require Import ZArith NArith Ascii String List Bool Lia.
From Stdlib Require DecimalString DecimalPos.
Import DecimalString.
From stdpp Require Import base option list sorting gmap strings.

Local Open Scope Z_scope.

(** ** Go integers and [time.Duration] *)

Module Int64.

Definition min_int : Z := - 2 ^ 63.
Definition max_int : Z := 2 ^ 63 - 1.

(** Two's complement wrap-around of a 64-bit signed integer. *)
Definition wrap (z : Z) : Z := (z + 2 ^ 63) mod 2 ^ 64 - 2 ^ 63.

Definition in_range (z : Z) : bool := (min_int <=? z) && (z <=? max_int).

Definition mul (a b : Z) : Z := wrap (a * b).

(** [a << n] for a non-negative shift count: bits shifted past the
    width are lost, a count of 64 or more gives 0. *)
Definition shl (a n : Z) : Z := wrap (Z.shiftl a n).

End Int64.

Module time.

(** [time.Duration] is an int64 count of nanoseconds. *)
Definition Duration : Type := Z.

Definition Second : Duration := 1000000000.

End time.

(** ** [strings] *)

Module strings.

Definition HasPrefix (s p : string) : bool := String.prefix p s.

Definition HasSuffix (s suffix : string) : bool :=
  (String.length suffix <=? String.length s)%nat &&
  String.eqb
    (String.substring (String.length s - String.length suffix)
                      (String.length suffix) s)
    suffix.

Definition TrimPrefix (s p : string) : string :=
  if HasPrefix s p
  then String.substring (String.length p)
                        (String.length s - String.length p) s
  else s.

Definition TrimSuffix (s suffix : string) : string :=
  if HasSuffix s suffix
  then String.substring 0 (String.length s - String.length suffix) s
  else s.

End strings.

(** ** [strconv.Atoi] *)

Module strconv.

Definition digit (c : ascii) : option Z :=
  let n := Z.of_N (N_of_ascii c) in
  if (48 <=? n) && (n <=? 57) then Some (n - 48) else None.

Fixpoint digits (s : string) (acc : Z) : option Z :=
  match s with
  | EmptyString => Some acc
  | String c s' =>
      match digit c with
      | Some d => digits s' (10 * acc + d)
      | None => None
      end
  end.

(** Base-10 [int] parsing: an optional sign, at least one digit, nothing
    else; a value outside the 64-bit range is an error. *)
Definition Atoi (s : string) : option Z :=
  let '(neg, ds) :=
    match s with
    | String "-"%char r => (true, r)
    | String "+"%char r => (false, r)
    | _ => (false, s)
    end in
  match ds with
  | EmptyString => None
  | _ =>
      match digits ds 0 with
      | Some v =>
          let v := if neg then - v else v in
          if Int64.in_range v then Some v else None
      | None => None
      end
  end.

End strconv.

(** ** [os.Getenv] *)

Module os.

Definition Environ : Type := gmap string string.

(** The value of the variable, or the empty string when it is unset. *)
Definition Getenv (env : Environ) (key : string) : string :=
  default EmptyString (env !! key).

End os.

(** ** [net/url]: query values *)

Module url.

(** [url.Values] is [map[string][]string]: keys carry no order. *)
Abbreviation Values := (gmap string (list string)).

(** [v.Set(key, value)] replaces whatever the key held. *)
Definition Set_ (v : Values) (key value : string) : Values :=
  <[key := [value]]> v.

Definition upperhex (n : N) : ascii :=
  nth (N.to_nat n) (list_ascii_of_string "0123456789ABCDEF") "0"%char.

Definition between (lo hi c : ascii) : bool :=
  (N_of_ascii lo <=? N_of_ascii c)%N && (N_of_ascii c <=? N_of_ascii hi)%N.

(** [shouldEscape(c, encodeQueryComponent)]: letters, digits and
    [-_.~] pass, every other byte is escaped. *)
Definition shouldEscape (c : ascii) : bool :=
  if between "a" "z" c || between "A" "Z" c || between "0" "9" c then false
  else if existsb (Ascii.eqb c) (list_ascii_of_string "-_.~") then false
  else true.

Fixpoint QueryEscape (s : string) : string :=
  match s with
  | EmptyString => EmptyString
  | String c s' =>
      if shouldEscape c then
        if Ascii.eqb c " " then String "+" (QueryEscape s')
        else
          let n := N_of_ascii c in
          String "%" (String (upperhex (n / 16)) (String (upperhex (n mod 16))
            (QueryEscape s')))
      else String c (QueryEscape s')
  end.

(** The keys in the order [Encode] walks them: [slices.Sort] puts
    strings in byte-wise lexicographic order, which is [String.le]. *)
Definition sorted_keys (v : Values) : list string :=
  merge_sort String.le (map fst (map_to_list v)).

(** One [key=value] pair appended to the buffer, with the [&] that
    [Encode] writes when the buffer is not empty. *)
Definition write_pair (keyEscaped : string) (buf value : string) : string :=
  let buf := if (0 <? String.length buf)%nat then buf +:+ "&" else buf in
  buf +:+ keyEscaped +:+ "=" +:+ QueryEscape value.

Definition write_key (v : Values) (buf key : string) : string :=
  fold_left (write_pair (QueryEscape key)) (default [] (v !! key)) buf.

Definition Encode (v : Values) : string :=
  if (size v =? 0)%nat then EmptyString
  else fold_left (write_key v) (sorted_keys v) EmptyString.

End url.

(** ** [bytes.Reader] *)

Module bytes.

(** The byte slice read from and the index of the next byte. *)
Record Reader := { s : string; i : nat }.

Definition NewReader (b : string) : Reader := {| s := b; i := 0 |}.

(** Number of bytes of the unread portion. *)
Definition Len (r : Reader) : nat := String.length (s r) - i r.

Definition unread (r : Reader) : string :=
  String.substring (i r) (Len r) (s r).

(** Reading [n] bytes moves the index, never past the end. *)
Definition advance (n : nat) (r : Reader) : Reader :=
  {| s := s r; i := i r + Nat.min n (Len r) |}.

End bytes.

(** ** Errors (the Go [errors.go]) *)

(** What went wrong underneath a [ConnectionError]. *)
Inductive cause : Type :=
| MarshalFailure (detail : string)     (* json.Marshal *)
| InvalidMethod (method : string)      (* http.NewRequestWithContext *)
| URLParseFailure (detail : string)    (* http.NewRequestWithContext *)
| TransportFailure (detail : string)   (* httpClient.Do *)
| ReadFailure (detail : string).       (* io.ReadAll *)

Record Error := { Message : string; Code : string; StatusCode : Z }.

(** The values of Go's [error] interface that the client returns: a bare
    [*Error] or one of the five types that embed it. *)
Inductive error : Type :=
| BaseError (e : Error)
| AuthenticationError (e : Error)
| NotFoundError (e : Error) (Resource : string)
| RateLimitError (e : Error) (RetryAfter : Z)
| ValidationError (e : Error) (Details : string)
| ConnectionError (e : Error) (Cause : cause).

Definition NewAuthenticationError (message : string) : error :=
  AuthenticationError
    {| Message := message; Code := "AUTHENTICATION_ERROR"; StatusCode := 401 |}.

Definition NewNotFoundError (resource : string) : error :=
  NotFoundError
    {| Message := "resource not found: " +:+ resource;
       Code := "NOT_FOUND"; StatusCode := 404 |}
    resource.

Definition NewRateLimitError (retryAfter : Z) : error :=
  RateLimitError
    {| Message := "rate limit exceeded";
       Code := "RATE_LIMIT_EXCEEDED"; StatusCode := 429 |}
    retryAfter.

Definition NewValidationError (details : string) : error :=
  ValidationError
    {| Message := "validation error: " +:+ details;
       Code := "VALIDATION_ERROR"; StatusCode := 422 |}
    details.

Definition NewConnectionError (message : string) (c : cause) : error :=
  ConnectionError
    {| Message := message; Code := "CONNECTION_ERROR"; StatusCode := 0 |}
    c.

(** The [*Error] built in the [default] branch of [request]. *)
Definition APIError (status : Z) (respBody : string) : error :=
  BaseError
    {| Message := "API error: " +:+ respBody;
       Code := "API_ERROR"; StatusCode := status |}.

(** The [*Error] returned when the loop ends with no error recorded. *)
Definition ExhaustedError : error :=
  BaseError {| Message := "max retries exceeded"; Code := ""; StatusCode := 0 |}.

(** ** [net/http]: headers, requests, and the stack underneath [Do] *)

Module http.

(** [http.Header] is [map[string][]string] under canonical keys. *)
Abbreviation Header := (gmap string (list string)).

(** [h.Get(key)], for a key already in canonical form: the first value
    stored under it, or the empty string. *)
Definition Get (h : Header) (key : string) : string :=
  match h !! key with
  | Some (v :: _) => v
  | _ => EmptyString
  end.

Definition Set_ (h : Header) (key value : string) : Header :=
  <[key := [value]]> h.

(** A request as it leaves the client. [URL] is the string the request
    was created from; [net/http] keeps the [*url.URL] parsed from it, and
    how that is written on the wire is the transport's business. [Body]
    holds the bytes the transport will read from the body reader: what is
    left unread in it when the request is created. *)
Record Request := {
  Method : string;
  URL : string;
  Hdr : Header;
  ContentLength : Z;
  Body : string
}.

Definition isTokenByte (c : ascii) : bool :=
  url.between "a" "z" c || url.between "A" "Z" c || url.between "0" "9" c ||
  existsb (Ascii.eqb c) (list_ascii_of_string "!#$%&'*+-.^_`|~").

Definition validMethod (method : string) : bool :=
  (0 <? String.length method)%nat &&
  forallb isTokenByte (list_ascii_of_string method).

(** [http.NewRequestWithContext(ctx, method, url, body)] with a non-nil
    context and a body that is nil or a [*bytes.Reader]. The URL parser is
    a parameter: [parse_err url] is the error [url.Parse] reports, if any.
    The content length and the body are taken from the reader as it is at
    this moment. *)
Definition NewRequestWithContext (parse_err : string -> option string)
    (method url : string) (body : option bytes.Reader) : Request + cause :=
  let method := if String.eqb method "" then "GET"%string else method in
  if negb (validMethod method) then inr (InvalidMethod method)
  else
    match parse_err url with
    | Some e => inr (URLParseFailure e)
    | None =>
        inl {| Method := method;
               URL := url;
               Hdr := ∅;
               ContentLength :=
                 match body with
                 | Some r => Z.of_nat (bytes.Len r)
                 | None => 0
                 end;
               Body :=
                 match body with
                 | Some r => bytes.unread r
                 | None => EmptyString
                 end |}
    end.

Definition SetHeader (req : Request) (key value : string) : Request :=
  {| Method := Method req; URL := URL req;
     Hdr := Set_ (Hdr req) key value;
     ContentLength := ContentLength req; Body := Body req |}.

(** The outcome of [io.ReadAll(resp.Body)]. *)
Inductive ReadAll : Type :=
| ReadOK (respBody : string)
| ReadErr (detail : string).

(** The outcome of [httpClient.Do(req)] and of the [io.ReadAll] that
    follows it: an error of the transport, or a response with its status,
    its headers and what reading its body gave. *)
Inductive DoResult : Type :=
| DoErr (detail : string)
| DoResp (StatusCode : Z) (header : Header) (body : ReadAll).

(** One exchange: how many bytes of the request body the transport read
    off the body reader, and what came back. *)
Record RoundTrip := { consumed : nat; result : DoResult }.

(** Everything below the client: the URL parser and, for the [n]-th call
    of [Do] within one [request], the exchange it produces. *)
Record Stack := {
  parse_err : string -> option string;
  Do : Z -> Request -> RoundTrip
}.

(** [http.Client], of which the client only ever sets the timeout. *)
Record Client := { Timeout : time.Duration }.

End http.

(** ** [json.Marshal] *)

(** A Go value passed as request body, seen through what [json.Marshal]
    makes of it: its JSON text, or the error for a value JSON cannot hold
    (a channel, a function, an infinite or NaN float). *)
Inductive Payload : Type :=
| Marshals (json : string)
| Unsupported (detail : string).

Definition json_Marshal (body : Payload) : string + cause :=
  match body with
  | Marshals j => inl j
  | Unsupported d => inr (MarshalFailure d)
  end.

(** ** The client ([client.go]) *)

Definition defaultBaseURL : string := "https://api.blackroad.io/v1".
Definition defaultTimeout : time.Duration := Int64.mul 30 time.Second.
Definition defaultMaxRetries : Z := 3.

Record ClientConfig := {
  APIKey : string;
  BaseURL : string;
  Timeout : time.Duration;
  MaxRetries : Z;
  HTTPClient : option http.Client
}.

(** The zero value [&ClientConfig{}]. *)
Definition zeroConfig : ClientConfig :=
  {| APIKey := ""; BaseURL := ""; Timeout := 0; MaxRetries := 0;
     HTTPClient := None |}.

Record Client := {
  apiKey : string;
  baseURL : string;
  timeout : time.Duration;
  maxRetries : Z;
  httpClient : http.Client
}.

(** The base address before normalisation: the explicit option, else the
    environment variable, else the default. *)
Definition resolveBaseURL (env : os.Environ) (config : ClientConfig) : string :=
  let baseURL := BaseURL config in
  let baseURL :=
    if String.eqb baseURL "" then os.Getenv env "BLACKROAD_API_URL"
    else baseURL in
  if String.eqb baseURL "" then defaultBaseURL else baseURL.

Definition NewClient (env : os.Environ) (config : option ClientConfig)
    : Client + error :=
  let config := default zeroConfig config in
  let apiKey := APIKey config in
  let apiKey :=
    if String.eqb apiKey "" then os.Getenv env "BLACKROAD_API_KEY"
    else apiKey in
  if String.eqb apiKey "" then
    inr (NewAuthenticationError
           "API key required. Set BLACKROAD_API_KEY environment variable or pass APIKey in config.")
  else
    let baseURL := strings.TrimSuffix (resolveBaseURL env config) "/" in
    let timeout := Timeout config in
    let timeout := if timeout =? 0 then defaultTimeout else timeout in
    let maxRetries := MaxRetries config in
    let maxRetries :=
      if maxRetries =? 0 then defaultMaxRetries else maxRetries in
    let httpClient :=
      match HTTPClient config with
      | Some h => h
      | None => {| http.Timeout := timeout |}
      end in
    inl {| apiKey := apiKey; baseURL := baseURL; timeout := timeout;
           maxRetries := maxRetries; httpClient := httpClient |}.

(** What a call does to the outside world, in order: [Send] is one
    [httpClient.Do(req)] with what came back (the response body read by
    [io.ReadAll] included), [Sleep] one [time.Sleep(d)]. [time.Sleep]
    returns at once when [d] is zero or negative. *)
Inductive Event : Type :=
| Send (attempt : Z) (req : http.Request) (res : http.DoResult)
| Sleep (d : time.Duration).

(** The value a call returns and the events it caused. *)
Definition Outcome : Type := (string + error) * list Event.

Definition emit (evs : list Event) (o : Outcome) : Outcome :=
  (fst o, evs ++ snd o).

Definition fullURL (c : Client) (endpoint : string) (params : url.Values)
    : string :=
  let fullURL := baseURL c +:+ "/" +:+ strings.TrimPrefix endpoint "/" in
  if (0 <? size params)%nat then fullURL +:+ "?" +:+ url.Encode params
  else fullURL.

(** The three headers every attempt sets. *)
Definition withHeaders (c : Client) (req : http.Request) : http.Request :=
  let req := http.SetHeader req "Authorization" ("Bearer " +:+ apiKey c) in
  let req := http.SetHeader req "Content-Type" "application/json" in
  http.SetHeader req "User-Agent" "blackroad-go/1.0.0".

(** What [Do] makes of the request of iteration [n], [req0] being the
    request as [http.NewRequestWithContext] returned it. *)
Definition exchange (st : http.Stack) (c : Client) (n : Z)
    (req0 : http.Request) : http.RoundTrip :=
  http.Do st n (withHeaders c req0).

(** The [Retry-After] value of a 429 response. *)
Definition retryAfterOf (header : http.Header) : Z :=
  let ra := http.Get header "Retry-After" in
  if String.eqb ra "" then 1
  else match strconv.Atoi ra with
       | Some parsed => parsed
       | None => 1
       end.

(** The loop [for attempt := 0; attempt < c.maxRetries; attempt++] from
    the iteration numbered [attempt] on, [remaining] being the number of
    iterations the loop condition still admits. [bodyReader] is the one
    reader created before the loop and [lastErr] the variable of that
    name. Inside the loop [0 <= attempt < c.maxRetries], so neither
    [attempt + 1] nor [c.maxRetries - 1] leaves the range of [int]. *)
Fixpoint attempts (st : http.Stack) (c : Client)
    (method endpoint fullURL : string)
    (remaining : nat) (attempt : Z)
    (bodyReader : option bytes.Reader) (lastErr : option error) : Outcome :=
  match remaining with
  | O =>
      match lastErr with
      | Some e => (inr e, [])
      | None => (inr ExhaustedError, [])
      end
  | S remaining' =>
      match http.NewRequestWithContext (http.parse_err st) method fullURL
              bodyReader with
      | inr err => (inr (NewConnectionError "failed to create request" err), [])
      | inl req =>
          let req := withHeaders c req in
          let rt := http.Do st attempt req in
          let sent := Send attempt req (http.result rt) in
          let bodyReader := bytes.advance (http.consumed rt) <$> bodyReader in
          let continue :=
            attempts st c method endpoint fullURL remaining' (attempt + 1)
              bodyReader in
          match http.result rt with
          | http.DoErr d =>
              emit [sent;
                    Sleep (Int64.mul (Int64.shl 1 attempt) time.Second)]
                (continue
                   (Some (NewConnectionError "request failed"
                            (TransportFailure d))))
          | http.DoResp status header (http.ReadErr d) =>
              emit [sent]
                (continue
                   (Some (NewConnectionError "failed to read response"
                            (ReadFailure d))))
          | http.DoResp status header (http.ReadOK respBody) =>
              if (200 <=? status) && (status <? 300) then
                (inl respBody, [sent])
              else if status =? 401 then
                (inr (NewAuthenticationError "invalid API key"), [sent])
              else if status =? 404 then
                (inr (NewNotFoundError endpoint), [sent])
              else if status =? 422 then
                (inr (NewValidationError respBody), [sent])
              else if status =? 429 then
                let retryAfter := retryAfterOf header in
                if attempt <? maxRetries c - 1 then
                  emit [sent; Sleep (Int64.mul retryAfter time.Second)]
                    (continue lastErr)
                else (inr (NewRateLimitError retryAfter), [sent])
              else
                emit [sent] (continue (Some (APIError status respBody)))
          end
      end
  end.

(** [c.request(ctx, method, endpoint, body, params)]. *)
Definition request (st : http.Stack) (c : Client)
    (method endpoint : string) (body : option Payload)
    (params : url.Values) : Outcome :=
  let fullURL := fullURL c endpoint params in
  let marshalled :=
    match body with
    | Some b =>
        match json_Marshal b with
        | inl jsonBody => inl (Some (bytes.NewReader jsonBody))
        | inr err => inr err
        end
    | None => inl None
    end in
  match marshalled with
  | inr err =>
      (inr (NewConnectionError "failed to marshal request body" err), [])
  | inl bodyReader =>
      attempts st c method endpoint fullURL (Z.to_nat (maxRetries c)) 0
        bodyReader None
  end.

Definition Get (st : http.Stack) (c : Client) (endpoint : string)
    (params : url.Values) : Outcome :=
  request st c "GET" endpoint None params.

Definition Post (st : http.Stack) (c : Client) (endpoint : string)
    (body : option Payload) : Outcome :=
  request st c "POST" endpoint body ∅.

Definition Put (st : http.Stack) (c : Client) (endpoint : string)
    (body : option Payload) : Outcome :=
  request st c "PUT" endpoint body ∅.

Definition Delete (st : http.Stack) (c : Client) (endpoint : string)
    : Outcome :=
  request st c "DELETE" endpoint None ∅.

(** ** Reading a trace *)

Definition is_send (ev : Event) : bool :=
  match ev with Send _ _ _ => true | Sleep _ => false end.

(** The number of send attempts in a trace. *)
Definition count_sends (evs : list Event) : nat :=
  length (filter (fun ev => is_send ev = true) evs).

(** The requests sent, in order. *)
Fixpoint sent_requests (evs : list Event) : list http.Request :=
  match evs with
  | [] => []
  | Send _ req _ :: evs' => req :: sent_requests evs'
  | Sleep _ :: evs' => sent_requests evs'
  end.

(** The durations slept, in order. *)
Fixpoint sleeps (evs : list Event) : list time.Duration :=
  match evs with
  | [] => []
  | Send _ _ _ :: evs' => sleeps evs'
  | Sleep d :: evs' => d :: sleeps evs'
  end.

(** A status the [switch] of [request] sends to its [default] branch:
    outside 200..299 and none of 401, 404, 422, 429. *)
Definition other_status (status : Z) : bool :=
  negb ((200 <=? status) && (status <? 300)) &&
  negb (status =? 401) && negb (status =? 404) &&
  negb (status =? 422) && negb (status =? 429).

(** The typed error of the three statuses that end a call at once. *)
Definition terminal_error (endpoint : string) (status : Z) (respBody : string)
    : error :=
  if status =? 401 then NewAuthenticationError "invalid API key"
  else if status =? 404 then NewNotFoundError endpoint
  else NewValidationError respBody.

(** The [key=value] pairs of a query string, keys in the order
    [url.sorted_keys] gives and the values of one key in stored order. *)
Definition query_pairs (v : url.Values) : list string :=
  flat_map
    (fun key =>
       map (fun value =>
              url.QueryEscape key +:+ "=" +:+ url.QueryEscape value)
           (default [] (v !! key)))
    (url.sorted_keys v).

(** A pair appended to a buffer, after an [&] when the buffer already
    holds something. *)
Definition append_pair (buf pair : string) : string :=
  (if (0 <? String.length buf)%nat then buf +:+ "&" else buf) +:+ pair.

(** The query parameters of the claim's example, set in the order given. *)
Definition status_then_limit : url.Values :=
  url.Set_ (url.Set_ ∅ "status" "pending") "limit" "10".

(** The values set one after the other, first pair first. *)
Definition set_all (kvs : list (string * string)) : url.Values :=
  fold_left (fun v kv => url.Set_ v (fst kv) (snd kv)) kvs ∅.

(** ** Sample configurations and HTTP stacks *)

Definition keyed (maxRetries : Z) : ClientConfig :=
  {| APIKey := "sk-test"; BaseURL := ""; Timeout := 0;
     MaxRetries := maxRetries; HTTPClient := None |}.

(** The client [NewClient] builds from [keyed 0] in an empty environment. *)
Definition sample_client : Client :=
  {| apiKey := "sk-test"; baseURL := "https://api.blackroad.io/v1";
     timeout := 30000000000; maxRetries := 3;
     httpClient := {| http.Timeout := 30000000000 |} |}.

Definition with_maxRetries (n : Z) (c : Client) : Client :=
  {| apiKey := apiKey c; baseURL := baseURL c; timeout := timeout c;
     maxRetries := n; httpClient := httpClient c |}.

(** A stack whose transport writes the whole request body and then
    answers every call the same way. *)
Definition always (res : http.DoResult) : http.Stack :=
  {| http.parse_err := fun _ => None;
     http.Do := fun _ req =>
       {| http.consumed := String.length (http.Body req);
          http.result := res |} |}.

(** A stack that answers call [n] with the [n]-th result of a script and
    later calls with [last]. *)
Definition scripted (script : list http.DoResult) (last : http.DoResult)
    : http.Stack :=
  {| http.parse_err := fun _ => None;
     http.Do := fun n req =>
       {| http.consumed := String.length (http.Body req);
          http.result := nth (Z.to_nat n) script last |} |}.

(** An environment that only sets the base address, and the client
    [NewClient] builds in it from [keyed 5]. *)
Definition staging_env : os.Environ :=
  {[ "BLACKROAD_API_URL" := "https://staging.blackroad.io/v1/" ]}.

Definition staging_client : Client :=
  {| apiKey := "sk-test"; baseURL := "https://staging.blackroad.io/v1";
     timeout := 30000000000; maxRetries := 5;
     httpClient := {| http.Timeout := 30000000000 |} |}.

(** An environment that sets a credential and variables named after the
    timeout and the retry count. *)
Definition tuned_env : os.Environ :=
  <["BLACKROAD_API_KEY" := "sk-env"]>
    (<["BLACKROAD_TIMEOUT" := "5"]>
       (<["BLACKROAD_MAX_RETRIES" := "7"]> ∅)).

(** A configuration whose base address ends in two separators, and the
    client built from it. *)
Definition doubled_config : ClientConfig :=
  {| APIKey := "sk-test"; BaseURL := "https://api.blackroad.io/v1//";
     Timeout := 0; MaxRetries := 0; HTTPClient := None |}.

Definition doubled_client : Client :=
  {| apiKey := "sk-test"; baseURL := "https://api.blackroad.io/v1/";
     timeout := 30000000000; maxRetries := 3;
     httpClient := {| http.Timeout := 30000000000 |} |}.

Definition retry_after (value : string) : http.Header :=
  http.Set_ ∅ "Retry-After" value.

(** The request the sample client sends for [method] on [endpoint] with
    the body bytes [body]. *)
Definition sample_request (method endpoint body : string) : http.Request :=
  withHeaders sample_client
    {| http.Method := method;
       http.URL := "https://api.blackroad.io/v1" +:+ endpoint;
       http.Hdr := ∅;
       http.ContentLength := Z.of_nat (String.length body);
       http.Body := body |}.

(** ** Reading a result *)

(** The attempt numbers of the sends of a trace, in order. *)
Fixpoint send_attempts (evs : list Event) : list Z :=
  match evs with
  | [] => []
  | Send n _ _ :: evs' => n :: send_attempts evs'
  | Sleep _ :: evs' => send_attempts evs'
  end.

(** The [*Error] every error value embeds, whose fields Go promotes
    ([err.StatusCode], [err.Code], [err.Message]). *)
Definition embedded (e : error) : Error :=
  match e with
  | BaseError b => b
  | AuthenticationError b => b
  | NotFoundError b _ => b
  | RateLimitError b _ => b
  | ValidationError b _ => b
  | ConnectionError b _ => b
  end.

(** What one exchange alone would make a call return: the value
    [request] returns from the branch the exchange falls in, or, in the
    branches that only record an error, the error recorded. *)
Definition classify (endpoint : string) (res : http.DoResult)
    : string + error :=
  match res with
  | http.DoErr d =>
      inr (NewConnectionError "request failed" (TransportFailure d))
  | http.DoResp _ _ (http.ReadErr d) =>
      inr (NewConnectionError "failed to read response" (ReadFailure d))
  | http.DoResp status header (http.ReadOK respBody) =>
      if (200 <=? status) && (status <? 300) then inl respBody
      else if status =? 401 then
        inr (NewAuthenticationError "invalid API key")
      else if status =? 404 then inr (NewNotFoundError endpoint)
      else if status =? 422 then inr (NewValidationError respBody)
      else if status =? 429 then
        inr (NewRateLimitError (retryAfterOf header))
      else inr (APIError status respBody)
  end.

(** ** Configurations and characters for the further properties *)

(** A configuration with another base address. *)
Definition with_BaseURL (b : string) (config : ClientConfig) : ClientConfig :=
  {| APIKey := APIKey config; BaseURL := b; Timeout := Timeout config;
     MaxRetries := MaxRetries config; HTTPClient := HTTPClient config |}.

(** The bytes [url.QueryEscape] can put out: the ones it leaves alone,
    the [+] it writes for a space and the [%] of an escape. *)
Definition escaped_byte (c : ascii) : bool :=
  negb (url.shouldEscape c) || Ascii.eqb c "+" || Ascii.eqb c "%".

(** The bytes of a query string: those of escaped keys and values and the
    two separators. *)
Definition query_byte (c : ascii) : bool :=
  escaped_byte c || Ascii.eqb c "&" || Ascii.eqb c "=".

(** ** The resource facades ([agents.go], [tasks.go], [memory.go]): the
    requests they make *)

(** [strconv.Itoa]: the decimal form of an integer, with a [-] for a
    negative one and no leading zeros. *)
Definition Itoa (n : Z) : string := NilZero.string_of_int (Z.to_int n).

Module AgentAPI.

(** [AgentListOptions]. *)
Record ListOptions := {
  Type_ : string;
  Division : string;
  Level : Z;
  Status : string;
  Limit : Z;
  Offset : Z
}.

(** The query parameters [List] builds from its options. *)
Definition listParams (opts : option ListOptions) : url.Values :=
  let params : url.Values := ∅ in
  match opts with
  | None => params
  | Some opts =>
      let params :=
        if negb (String.eqb (Type_ opts) "")
        then url.Set_ params "type" (Type_ opts) else params in
      let params :=
        if negb (String.eqb (Division opts) "")
        then url.Set_ params "division" (Division opts) else params in
      let params :=
        if 0 <? Level opts
        then url.Set_ params "level" (Itoa (Level opts)) else params in
      let params :=
        if negb (String.eqb (Status opts) "")
        then url.Set_ params "status" (Status opts) else params in
      let params :=
        if 0 <? Limit opts
        then url.Set_ params "limit" (Itoa (Limit opts)) else params in
      if 0 <? Offset opts
      then url.Set_ params "offset" (Itoa (Offset opts)) else params
  end.

(** [List], up to the response body it gets back: the decoding of the
    body with [json.Unmarshal] that follows is not modelled. *)
Definition List (st : http.Stack) (c : Client) (opts : option ListOptions)
    : Outcome :=
  Get st c "/agents" (listParams opts).

End AgentAPI.

Module TaskAPI.

(** [TaskListOptions]. *)
Record ListOptions := {
  Status : string;
  Priority : string;
  Division : string;
  Limit : Z;
  Offset : Z
}.

(** The query parameters [List] builds from its options. *)
Definition listParams (opts : option ListOptions) : url.Values :=
  let params : url.Values := ∅ in
  match opts with
  | None => params
  | Some opts =>
      let params :=
        if negb (String.eqb (Status opts) "")
        then url.Set_ params "status" (Status opts) else params in
      let params :=
        if negb (String.eqb (Priority opts) "")
        then url.Set_ params "priority" (Priority opts) else params in
      let params :=
        if negb (String.eqb (Division opts) "")
        then url.Set_ params "division" (Division opts) else params in
      let params :=
        if 0 <? Limit opts
        then url.Set_ params "limit" (Itoa (Limit opts)) else params in
      if 0 <? Offset opts
      then url.Set_ params "offset" (Itoa (Offset opts)) else params
  end.

(** [List], up to the response body it gets back. *)
Definition List (st : http.Stack) (c : Client) (opts : option ListOptions)
    : Outcome :=
  Get st c "/tasks" (listParams opts).

End TaskAPI.

Module MemoryAPI.

(** [MemoryQueryOptions]. [Since] and [Until] are [*time.Time] in the
    source and are used only through [Format("2006-01-02T15:04:05Z")]:
    here they hold that formatted text, or nothing for a nil pointer. *)
Record QueryOptions := {
  Search : string;
  Action : string;
  Entity : string;
  Tags : list string;
  Since : option string;
  Until : option string;
  Limit : Z;
  Offset : Z
}.

(** The query parameters [Query] builds from its options. *)
Definition queryParams (opts : option QueryOptions) : url.Values :=
  let params : url.Values := ∅ in
  match opts with
  | None => params
  | Some opts =>
      let params :=
        if negb (String.eqb (Search opts) "")
        then url.Set_ params "q" (Search opts) else params in
      let params :=
        if negb (String.eqb (Action opts) "")
        then url.Set_ params "action" (Action opts) else params in
      let params :=
        if negb (String.eqb (Entity opts) "")
        then url.Set_ params "entity" (Entity opts) else params in
      let params :=
        if (0 <? length (Tags opts))%nat
        then url.Set_ params "tags" (String.concat "," (Tags opts))
        else params in
      let params :=
        match Since opts with
        | Some formatted => url.Set_ params "since" formatted
        | None => params
        end in
      let params :=
        match Until opts with
        | Some formatted => url.Set_ params "until" formatted
        | None => params
        end in
      let params :=
        if 0 <? Limit opts
        then url.Set_ params "limit" (Itoa (Limit opts))
        else url.Set_ params "limit" "100" in
      if 0 <? Offset opts
      then url.Set_ params "offset" (Itoa (Offset opts)) else params
  end.

(** [Query], up to the response body it gets back. *)
Definition Query (st : http.Stack) (c : Client) (opts : option QueryOptions)
    : Outcome :=
  Get st c "/memory" (queryParams opts).

(** [Recent], up to the response body it gets back. *)
Definition Recent (st : http.Stack) (c : Client) (limit : Z) : Outcome :=
  let limit := if limit <=? 0 then 50 else limit in
  Query st c
    (Some {| Search := ""; Action := ""; Entity := ""; Tags := [];
             Since := None; Until := None; Limit := limit; Offset := 0 |}).

End MemoryAPI.

(** ** The Ruby client ([lib/blackroad/client.rb], [lib/blackroad/errors.rb]) *)

Module Ruby.

(** [Blackroad::Error]: the message of [StandardError] and the two
    attributes, [nil] being [None]. *)
Record Error := {
  message : string;
  code : option string;
  status_code : option Z
}.

(** The error classes of [errors.rb] with the attributes each adds. *)
Inductive error : Type :=
| BaseError (e : Error)
| AuthenticationError (e : Error)
| NotFoundError (e : Error) (resource : string)
| RateLimitError (e : Error) (retry_after : Z)
| ValidationError (e : Error) (details : string)
| ConnectionError (e : Error) (cause : string).

Definition base (e : error) : Error :=
  match e with
  | BaseError b => b
  | AuthenticationError b => b
  | NotFoundError b _ => b
  | RateLimitError b _ => b
  | ValidationError b _ => b
  | ConnectionError b _ => b
  end.

(** [Error.new(message, status_code: status_code)]. *)
Definition new_Error (message : string) (status_code : option Z) : error :=
  BaseError {| message := message; code := None; status_code := status_code |}.

(** [AuthenticationError.new(message)]; the default message is
    [default_authentication_message]. *)
Definition default_authentication_message : string := "Invalid API key".

Definition new_AuthenticationError (message : string) : error :=
  AuthenticationError
    {| message := message; code := Some "AUTHENTICATION_ERROR";
       status_code := Some 401 |}.

Definition new_NotFoundError (resource : string) : error :=
  NotFoundError
    {| message := "Resource not found: " +:+ resource;
       code := Some "NOT_FOUND"; status_code := Some 404 |}
    resource.

Definition new_RateLimitError (retry_after : Z) : error :=
  RateLimitError
    {| message :=
         "Rate limit exceeded. Retry after " +:+ Itoa retry_after
         +:+ " seconds";
       code := Some "RATE_LIMIT_EXCEEDED"; status_code := Some 429 |}
    retry_after.

Definition new_ValidationError (details : string) : error :=
  ValidationError
    {| message := "Validation error: " +:+ details;
       code := Some "VALIDATION_ERROR"; status_code := Some 422 |}
    details.

(** [ConnectionError.new(message, cause: e)], the cause kept as the
    message of the exception [e]. *)
Definition new_ConnectionError (message cause : string) : error :=
  ConnectionError
    {| message := message; code := Some "CONNECTION_ERROR";
       status_code := None |}
    cause.

Definition DEFAULT_BASE_URL : string := "https://api.blackroad.io/v1".
Definition DEFAULT_TIMEOUT : Z := 30.
Definition DEFAULT_MAX_RETRIES : Z := 3.

(** The instance variables [initialize] sets, apart from the Faraday
    connection, which is built from them. *)
Record Client := {
  api_key : string;
  base_url : string;
  timeout : Z;
  max_retries : Z
}.

(** Ruby's [a || b] on a value that is [nil] or not: [nil] is the only
    falsy value of the types involved (strings and integers, the empty
    string and 0 included, are truthy). *)
Definition or_else {A} (a b : option A) : option A :=
  match a with
  | Some _ => a
  | None => b
  end.

(** [s.chomp("/")]: one trailing separator removed if there is one. *)
Definition chomp (s suffix : string) : string := strings.TrimSuffix s suffix.

(** A Faraday response: status, headers (looked up by name) and body. *)
Record Response := {
  status : Z;
  headers : gmap string string;
  body : string
}.

(** [response.success?]: the status is in 200..299. *)
Definition success (response : Response) : bool :=
  (200 <=? status response) && (status response <=? 299).

(** What a call of the client does: return a value, raise one of the
    errors of [errors.rb], or raise an exception of another library. *)
Inductive Result (J : Type) : Type :=
| Returns (value : J)
| Raises (e : error)
| RaisesOther (exception detail : string).

Arguments Returns {J} value.
Arguments Raises {J} e.
Arguments RaisesOther {J} exception detail.

(** [Client.new(api_key:, base_url:, timeout:, max_retries:)], each
    keyword a value of its documented type or [nil]; [ENV] maps the
    variables that are set to their values. [Faraday_new] stands for
    [build_connection], that is [Faraday.new(url: @base_url)] with the
    block that configures it from the instance variables: it gives the
    exception it raises, if any (a base address that is no URI, a
    middleware that is not registered). The result is the client, the
    error raised by [initialize] itself, or the exception of Faraday. *)
Definition initialize (Faraday_new : Client -> option (string * string))
    (ENV : gmap string string)
    (api_key base_url : option string) (timeout max_retries : option Z)
    : Result Client :=
  match or_else api_key (ENV !! "BLACKROAD_API_KEY") with
  | None =>
      Raises
        (new_AuthenticationError
           "API key required. Set BLACKROAD_API_KEY environment variable or pass api_key.")
  | Some key =>
      let client :=
        {| api_key := key;
           base_url :=
             chomp
               (default DEFAULT_BASE_URL
                  (or_else base_url (ENV !! "BLACKROAD_API_URL")))
               "/";
           timeout := default DEFAULT_TIMEOUT timeout;
           max_retries := default DEFAULT_MAX_RETRIES max_retries |} in
      match Faraday_new client with
      | Some (exception, detail) => RaisesOther exception detail
      | None => Returns client
      end
  end.

(** What [@connection.send(method)] does once the retry middleware is
    through: a response, or one of the two Faraday exceptions [request]
    rescues, or any other exception. *)
Inductive SendResult : Type :=
| Responded (response : Response)
| ConnectionFailed (detail : string)
| TimeoutError (detail : string)
| OtherException (exception detail : string).

(** A request body, seen through [to_json]: its JSON text, or the
    exception for a value JSON cannot hold. *)
Inductive Json : Type :=
| Rendered (text : string)
| Unrenderable (detail : string).

Section Calls.

(** [JSON.parse] (nothing when it raises [JSON::ParserError]),
    [String#to_i], and the Faraday connection, which is given the method,
    the path, the query parameters and the body set on the request. *)
Variables (J : Type) (JSON_parse : string -> option J) (to_i : string -> Z).
Variable connection_send :
  string -> string -> option (list (string * string)) -> option string ->
  SendResult.

Definition handle_response (response : Response) (endpoint : string)
    : Result J :=
  if success response then
    match JSON_parse (body response) with
    | Some value => Returns value
    | None => RaisesOther "JSON::ParserError" (body response)
    end
  else if status response =? 401 then
    Raises (new_AuthenticationError default_authentication_message)
  else if status response =? 404 then Raises (new_NotFoundError endpoint)
  else if status response =? 422 then
    Raises (new_ValidationError (body response))
  else if status response =? 429 then
    let retry_after :=
      default 1 (to_i <$> headers response !! "Retry-After") in
    Raises (new_RateLimitError retry_after)
  else
    Raises
      (new_Error
         ("API error (" +:+ Itoa (status response) +:+ "): "
          +:+ body response)
         (Some (status response))).

(** The path [request] asks for. *)
Definition request_path (endpoint : string) : string :=
  if strings.HasPrefix endpoint "/" then endpoint else "/" +:+ endpoint.

Definition request (method endpoint : string)
    (params : option (list (string * string))) (body : option Json)
    : Result J :=
  let path := request_path endpoint in
  let params :=
    match params with
    | Some (_ :: _) => params
    | _ => None
    end in
  match body with
  | Some (Unrenderable detail) => RaisesOther "JSON::GeneratorError" detail
  | _ =>
      let body :=
        match body with
        | Some (Rendered text) => Some text
        | _ => None
        end in
      match connection_send method path params body with
      | Responded response => handle_response response endpoint
      | ConnectionFailed detail =>
          Raises (new_ConnectionError ("Connection failed: " +:+ detail) detail)
      | TimeoutError detail =>
          Raises (new_ConnectionError ("Connection failed: " +:+ detail) detail)
      | OtherException exception detail => RaisesOther exception detail
      end
  end.

Definition get (endpoint : string) (params : list (string * string))
    : Result J :=
  request "get" endpoint (Some params) None.

Definition post (endpoint : string) (body : Json) : Result J :=
  request "post" endpoint None (Some body).

Definition put (endpoint : string) (body : Json) : Result J :=
  request "put" endpoint None (Some body).

Definition delete (endpoint : string) : Result J :=
  request "delete" endpoint None None.

End Calls.

(** A connection that answers every request with an empty JSON list. *)
Definition sample_connection (method path : string)
    (params : option (list (string * string))) (body : option string)
    : SendResult :=
  Responded {| status := 200; headers := ∅; body := "[]" |}.

End Ruby.

(** * Properties *)

(** ** Arithmetic of 64-bit durations *)

Lemma wrap_small z :
  Int64.min_int <= z <= Int64.max_int -> Int64.wrap z = z.
Proof.
  unfold Int64.wrap, Int64.min_int, Int64.max_int. intros H.
  rewrite Z.mod_small by lia. lia.
Qed.

Lemma wrap_range z : Int64.min_int <= Int64.wrap z <= Int64.max_int.
Proof.
  unfold Int64.wrap, Int64.min_int, Int64.max_int.
  pose proof (Z.mod_pos_bound (z + 2 ^ 63) (2 ^ 64) ltac:(lia)). lia.
Qed.

(** Whole seconds up to 9223372036 fit a [time.Duration]. *)
Lemma seconds_exact (n : Z) :
  -9223372036 <= n <= 9223372036 ->
  Int64.mul n time.Second = n * 1000000000.
Proof.
  intros H. unfold Int64.mul, time.Second. apply wrap_small.
  unfold Int64.min_int, Int64.max_int. lia.
Qed.

(** The back-off [1<<attempt] seconds is [2^attempt] seconds up to
    attempt 33. *)
Lemma backoff_exact (attempt : Z) :
  0 <= attempt <= 33 ->
  Int64.mul (Int64.shl 1 attempt) time.Second = 2 ^ attempt * 1000000000.
Proof.
  intros H. unfold Int64.shl. rewrite Z.shiftl_1_l.
  assert (Hp : 1 <= 2 ^ attempt <= 2 ^ 33).
  { split.
    - apply (Z.pow_le_mono_r 2 0 attempt); lia.
    - apply Z.pow_le_mono_r; lia. }
  rewrite wrap_small by (unfold Int64.min_int, Int64.max_int; lia).
  apply seconds_exact. lia.
Qed.

(** ** [strings.TrimSuffix] *)

Lemma append_nil_l (b : string) : "" +:+ b = b.
Proof. reflexivity. Qed.

Lemma append_cons (c : ascii) (a b : string) :
  String c a +:+ b = String c (a +:+ b).
Proof. reflexivity. Qed.

Lemma append_nil_r (a : string) : a +:+ "" = a.
Proof.
  induction a as [|c a IH]; [reflexivity | now rewrite append_cons, IH].
Qed.

Lemma append_assoc (a b c : string) : (a +:+ b) +:+ c = a +:+ (b +:+ c).
Proof.
  induction a as [|x a IH]; [reflexivity | now rewrite !append_cons, IH].
Qed.

Lemma length_append (a b : string) :
  String.length (a +:+ b) = (String.length a + String.length b)%nat.
Proof.
  induction a as [|c a IH]; [reflexivity |].
  rewrite append_cons. simpl. now rewrite IH.
Qed.

Lemma substring_all (s : string) :
  String.substring 0 (String.length s) s = s.
Proof. induction s as [|c s IH]; simpl; [reflexivity | now rewrite IH]. Qed.

Lemma substring_append_l (a b : string) :
  String.substring 0 (String.length a) (a +:+ b) = a.
Proof.
  induction a as [|c a IH].
  - rewrite append_nil_l. destruct b; reflexivity.
  - rewrite append_cons. simpl. now rewrite IH.
Qed.

Lemma substring_append_r (a b : string) :
  String.substring (String.length a) (String.length b) (a +:+ b) = b.
Proof.
  induction a as [|c a IH]; [apply substring_all | exact IH].
Qed.

Lemma substring_split (s : string) (k : nat) :
  (k <= String.length s)%nat ->
  s = String.substring 0 k s +:+
      String.substring k (String.length s - k) s.
Proof.
  revert k. induction s as [|c s IH]; intros k Hk; simpl in *.
  - destruct k; [reflexivity | lia].
  - destruct k as [|k]; simpl.
    + rewrite append_nil_l. now rewrite substring_all.
    + rewrite append_cons. f_equal. apply IH. lia.
Qed.

Lemma HasSuffix_append (t suffix : string) :
  strings.HasSuffix (t +:+ suffix) suffix = true.
Proof.
  unfold strings.HasSuffix. rewrite length_append.
  apply andb_true_intro. split.
  - apply Nat.leb_le. lia.
  - replace (String.length t + String.length suffix - String.length suffix)%nat
      with (String.length t) by lia.
    rewrite substring_append_r. apply String.eqb_refl.
Qed.

Lemma HasSuffix_split (s suffix : string) :
  strings.HasSuffix s suffix = true ->
  s = String.substring 0 (String.length s - String.length suffix) s
      +:+ suffix.
Proof.
  unfold strings.HasSuffix. intros H.
  apply andb_prop in H as [Hlen Heq].
  apply Nat.leb_le in Hlen. apply String.eqb_eq in Heq.
  set (k := (String.length s - String.length suffix)%nat) in *.
  rewrite (substring_split s k) at 1 by lia.
  f_equal. rewrite <- Heq. f_equal. lia.
Qed.

(** A present suffix is cut off, once. *)
Lemma TrimSuffix_present (s suffix : string) :
  strings.HasSuffix s suffix = true ->
  s = strings.TrimSuffix s suffix +:+ suffix.
Proof.
  intros H. unfold strings.TrimSuffix. rewrite H.
  now apply HasSuffix_split.
Qed.

Lemma TrimSuffix_absent (s suffix : string) :
  strings.HasSuffix s suffix = false -> strings.TrimSuffix s suffix = s.
Proof. intros H. unfold strings.TrimSuffix. now rewrite H. Qed.

(** What is left after the cut can end in the separator only when the
    input ended in two of them. *)
Lemma TrimSuffix_slash_again (s : string) :
  strings.HasSuffix (strings.TrimSuffix s "/") "/" = true ->
  strings.HasSuffix s "//" = true.
Proof.
  intros H.
  destruct (strings.HasSuffix s "/") eqn:Hs.
  - pose proof (TrimSuffix_present _ _ Hs) as E1.
    pose proof (TrimSuffix_present _ _ H) as E2.
    rewrite E2 in E1. rewrite append_assoc in E1.
    change ("/" +:+ "/") with "//" in E1.
    rewrite E1. apply HasSuffix_append.
  - rewrite TrimSuffix_absent in H by assumption. congruence.
Qed.

(** ** Configuration resolution ([NewClient]) *)

(** Case analysis on the tests [x == ""] and [n == 0] of [NewClient]. *)
Ltac split_tests :=
  repeat match goal with
    | |- context [String.eqb ?a ?b] =>
        let E := fresh "E" in
        destruct (String.eqb a b) eqn:E;
        [apply String.eqb_eq in E | apply String.eqb_neq in E]
    | H : context [String.eqb ?a ?b] |- _ =>
        let E := fresh "E" in
        destruct (String.eqb a b) eqn:E;
        [apply String.eqb_eq in E | apply String.eqb_neq in E]
    | |- context [Z.eqb ?a ?b] =>
        let E := fresh "E" in
        destruct (Z.eqb a b) eqn:E;
        [apply Z.eqb_eq in E | apply Z.eqb_neq in E]
    end.

(** The fields of a client that was built, read off [NewClient]. *)
Lemma NewClient_fields env config c :
  NewClient env config = inl c ->
  let cfg := default zeroConfig config in
  apiKey c =
    (if String.eqb (APIKey cfg) "" then os.Getenv env "BLACKROAD_API_KEY"
     else APIKey cfg) /\
  apiKey c <> "" /\
  baseURL c = strings.TrimSuffix (resolveBaseURL env cfg) "/" /\
  timeout c = (if Timeout cfg =? 0 then defaultTimeout else Timeout cfg) /\
  maxRetries c =
    (if MaxRetries cfg =? 0 then defaultMaxRetries else MaxRetries cfg).
Proof.
  intros H cfg. unfold NewClient in H. cbv zeta in H. fold cfg in H.
  destruct (String.eqb
              (if String.eqb (APIKey cfg) ""
               then os.Getenv env "BLACKROAD_API_KEY" else APIKey cfg) "")
    eqn:Ekey; [discriminate |].
  apply String.eqb_neq in Ekey.
  inversion H; subst c; clear H. simpl.
  repeat split; try reflexivity. exact Ekey.
Qed.

(** C7. When the explicit credential is empty and the environment variable
    BLACKROAD_API_KEY is empty (or unset), construction fails with an
    Authentication error; no client comes into being, so nothing can be
    sent through it. *)
Theorem missing_credential_fails (env : os.Environ)
    (config : option ClientConfig) :
  APIKey (default zeroConfig config) = "" ->
  os.Getenv env "BLACKROAD_API_KEY" = "" ->
  NewClient env config =
    inr (NewAuthenticationError
           "API key required. Set BLACKROAD_API_KEY environment variable or pass APIKey in config.")
  /\ forall c, NewClient env config <> inl c.
Proof.
  intros Hexp Henv.
  assert (E : NewClient env config =
    inr (NewAuthenticationError
           "API key required. Set BLACKROAD_API_KEY environment variable or pass APIKey in config.")).
  { unfold NewClient. rewrite Hexp. simpl. rewrite Henv. reflexivity. }
  split; [exact E | intros c Hc; rewrite E in Hc; discriminate].
Qed.

Lemma missing_credential_fails_witness :
  NewClient ∅ None =
    inr (NewAuthenticationError
           "API key required. Set BLACKROAD_API_KEY environment variable or pass APIKey in config.")
  /\ forall c, NewClient ∅ None <> inl c.
Proof.
  apply (missing_credential_fails ∅ None); reflexivity.
Defined.

(** C8 (as the code has it). Construction succeeds whenever the explicit
    credential or the environment variable BLACKROAD_API_KEY is not empty,
    and each setting of the client is then resolved as follows: the
    credential from the option, else BLACKROAD_API_KEY, with no default;
    the base address from the option, else BLACKROAD_API_URL, else
    https://api.blackroad.io/v1 (one trailing separator removed); the
    timeout from the option, else 30 seconds; the retry count from the
    option, else 3. The environment is not read for the timeout or the
    retry count: for them there are two tiers, not three. *)
Theorem config_precedence (env : os.Environ) (config : option ClientConfig) :
  let cfg := default zeroConfig config in
  APIKey cfg <> "" \/ os.Getenv env "BLACKROAD_API_KEY" <> "" ->
  exists c,
    NewClient env config = inl c /\
    (APIKey cfg <> "" -> apiKey c = APIKey cfg) /\
    (APIKey cfg = "" -> apiKey c = os.Getenv env "BLACKROAD_API_KEY") /\
    (BaseURL cfg <> "" -> baseURL c = strings.TrimSuffix (BaseURL cfg) "/") /\
    (BaseURL cfg = "" -> os.Getenv env "BLACKROAD_API_URL" <> "" ->
       baseURL c =
         strings.TrimSuffix (os.Getenv env "BLACKROAD_API_URL") "/") /\
    (BaseURL cfg = "" -> os.Getenv env "BLACKROAD_API_URL" = "" ->
       baseURL c = "https://api.blackroad.io/v1") /\
    (Timeout cfg <> 0 -> timeout c = Timeout cfg) /\
    (Timeout cfg = 0 -> timeout c = 30 * time.Second) /\
    (MaxRetries cfg <> 0 -> maxRetries c = MaxRetries cfg) /\
    (MaxRetries cfg = 0 -> maxRetries c = 3).
Proof.
  intros cfg Hkey.
  assert (Hbuilt : exists c, NewClient env config = inl c).
  { unfold NewClient. cbv zeta. fold cfg.
    destruct (String.eqb
                (if String.eqb (APIKey cfg) ""
                 then os.Getenv env "BLACKROAD_API_KEY" else APIKey cfg) "")
      eqn:E; [| eexists; reflexivity].
    exfalso. apply String.eqb_eq in E.
    destruct (String.eqb (APIKey cfg) "") eqn:E';
      [apply String.eqb_eq in E' | apply String.eqb_neq in E'];
      destruct Hkey; congruence. }
  destruct Hbuilt as (c & H). exists c. split; [exact H |].
  destruct (NewClient_fields _ _ _ H) as (Hk & _ & Hurl & Htime & Hmax).
  fold cfg in Hk, Hurl, Htime, Hmax.
  unfold resolveBaseURL in Hurl.
  repeat split; intros;
    rewrite ?Hk, ?Hurl, ?Htime, ?Hmax;
    split_tests; try reflexivity; congruence.
Qed.

Lemma config_precedence_witness :
  exists c,
    NewClient staging_env (Some (keyed 5)) = inl c /\
    apiKey c = "sk-test" /\
    baseURL c =
      strings.TrimSuffix (os.Getenv staging_env "BLACKROAD_API_URL") "/" /\
    timeout c = 30 * time.Second /\
    maxRetries c = 5.
Proof.
  destruct (config_precedence staging_env (Some (keyed 5)))
    as (c & H & Hkey & _ & _ & Hurl & _ & _ & Htime & Hmax & _).
  { left. discriminate. }
  exists c. split; [exact H |].
  split; [apply Hkey; discriminate |].
  split; [apply Hurl; [reflexivity | vm_compute; discriminate] |].
  split; [apply Htime; reflexivity | apply Hmax; discriminate].
Defined.

(** C8 fails as stated for the timeout and the retry count: the claim
    names an environment tier for them and the code has none. In an
    environment that sets a credential and variables named after the two
    settings, a nil configuration gets the defaults of 30 seconds and 3,
    and whatever the environment, the timeout and the retry count of the
    client are those of any other environment. *)
Lemma environment_not_read_for_timeout_or_retries :
  (exists c,
     NewClient tuned_env None = inl c /\
     apiKey c = "sk-env" /\
     timeout c = 30 * time.Second /\ maxRetries c = 3) /\
  (forall env env' config c c',
     NewClient env config = inl c -> NewClient env' config = inl c' ->
     timeout c = timeout c' /\ maxRetries c = maxRetries c').
Proof.
  split.
  - eexists. split; [vm_compute; reflexivity |].
    repeat split; vm_compute; reflexivity.
  - intros env env' config c c' H H'.
    destruct (NewClient_fields _ _ _ H) as (_ & _ & _ & Ht & Hm).
    destruct (NewClient_fields _ _ _ H') as (_ & _ & _ & Ht' & Hm').
    cbv zeta in Ht, Hm, Ht', Hm'.
    rewrite Ht, Hm, Ht', Hm'. split; reflexivity.
Qed.

(** C9 (as the code has it). The base address of a client is the resolved
    input (explicit option, else BLACKROAD_API_URL, else the default) with
    exactly one trailing separator removed if there is one. It therefore has
    no trailing separator whenever the input does not end in two
    separators. *)
Theorem base_address_trimmed_once (env : os.Environ)
    (config : option ClientConfig) (c : Client) :
  NewClient env config = inl c ->
  let raw := resolveBaseURL env (default zeroConfig config) in
  (strings.HasSuffix raw "/" = true -> raw = baseURL c +:+ "/") /\
  (strings.HasSuffix raw "/" = false -> baseURL c = raw) /\
  (strings.HasSuffix raw "//" = false ->
     strings.HasSuffix (baseURL c) "/" = false).
Proof.
  intros H raw.
  destruct (NewClient_fields _ _ _ H) as (_ & _ & Hurl & _).
  fold raw in Hurl. rewrite Hurl.
  split; [apply TrimSuffix_present |].
  split; [apply TrimSuffix_absent |].
  intros Hdouble.
  destruct (strings.HasSuffix (strings.TrimSuffix raw "/") "/") eqn:E;
    [| reflexivity].
  apply TrimSuffix_slash_again in E. congruence.
Qed.

Lemma base_address_trimmed_once_witness :
  NewClient staging_env (Some (keyed 5)) = inl staging_client /\
  resolveBaseURL staging_env (keyed 5) = baseURL staging_client +:+ "/" /\
  strings.HasSuffix (baseURL staging_client) "/" = false.
Proof.
  assert (H : NewClient staging_env (Some (keyed 5)) = inl staging_client)
    by (vm_compute; reflexivity).
  destruct (base_address_trimmed_once staging_env (Some (keyed 5))
              staging_client H) as (Hcut & _ & Hnone).
  split; [exact H |].
  split; [apply Hcut; vm_compute; reflexivity
         | apply Hnone; vm_compute; reflexivity].
Defined.

(** C9 fails as stated: a base address that ends in two separators is
    accepted and the client's base address still ends in one. *)
Lemma trailing_separator_survives :
  NewClient ∅ (Some doubled_config) = inl doubled_client /\
  strings.HasSuffix (baseURL doubled_client) "/" = true.
Proof. split; vm_compute; reflexivity. Qed.

(** ** The retry loop, one iteration at a time *)

Section Loop.

Variables (st : http.Stack) (c : Client) (method endpoint u : string).

Local Abbreviation loop := (attempts st c method endpoint u).

Lemma loop_O n rd le :
  loop O n rd le =
    match le with
    | Some e => (inr e, [])
    | None => (inr ExhaustedError, [])
    end.
Proof. reflexivity. Qed.

Lemma loop_create_fails k n rd le err :
  http.NewRequestWithContext (http.parse_err st) method u rd = inr err ->
  loop (S k) n rd le =
    (inr (NewConnectionError "failed to create request" err), []).
Proof. intros H. simpl. rewrite H. reflexivity. Qed.

(** Whether a request can be created depends on the method and the URL
    alone, not on the state of the body reader. *)
Lemma create_again rd rd' req0 :
  http.NewRequestWithContext (http.parse_err st) method u rd = inl req0 ->
  exists req1,
    http.NewRequestWithContext (http.parse_err st) method u rd' = inl req1.
Proof.
  unfold http.NewRequestWithContext.
  destruct (negb _); [discriminate |].
  destruct (http.parse_err st u); [discriminate |].
  intros _. eexists. reflexivity.
Qed.

Section Iteration.

Variables (k : nat) (n : Z) (rd : option bytes.Reader) (le : option error)
  (req0 : http.Request).

Hypothesis created :
  http.NewRequestWithContext (http.parse_err st) method u rd = inl req0.

Local Abbreviation rt := (exchange st c n req0).
Local Abbreviation sent := (Send n (withHeaders c req0) (http.result rt)).
Local Abbreviation rd' := (bytes.advance (http.consumed rt) <$> rd).

Lemma loop_transport_failure d :
  http.result rt = http.DoErr d ->
  loop (S k) n rd le =
    emit [sent; Sleep (Int64.mul (Int64.shl 1 n) time.Second)]
      (loop k (n + 1) rd'
         (Some (NewConnectionError "request failed" (TransportFailure d)))).
Proof.
  intros H. unfold exchange in *. simpl.
  rewrite created. cbv zeta. rewrite H. reflexivity.
Qed.

Lemma loop_read_failure status header d :
  http.result rt = http.DoResp status header (http.ReadErr d) ->
  loop (S k) n rd le =
    emit [sent]
      (loop k (n + 1) rd'
         (Some (NewConnectionError "failed to read response"
                  (ReadFailure d)))).
Proof.
  intros H. unfold exchange in *. simpl.
  rewrite created. cbv zeta. rewrite H. reflexivity.
Qed.

Lemma loop_success status header respBody :
  http.result rt = http.DoResp status header (http.ReadOK respBody) ->
  200 <= status < 300 ->
  loop (S k) n rd le = (inl respBody, [sent]).
Proof.
  intros H Hs. unfold exchange in *. simpl.
  rewrite created. cbv zeta. rewrite H.
  replace ((200 <=? status) && (status <? 300)) with true; [reflexivity |].
  symmetry. apply andb_true_intro. split; [apply Z.leb_le | apply Z.ltb_lt]; lia.
Qed.

Lemma loop_terminal status header respBody :
  http.result rt = http.DoResp status header (http.ReadOK respBody) ->
  status = 401 \/ status = 404 \/ status = 422 ->
  loop (S k) n rd le =
    (inr (terminal_error endpoint status respBody), [sent]).
Proof.
  intros H Hs. unfold exchange in *. simpl.
  rewrite created. cbv zeta. rewrite H.
  destruct Hs as [-> | [-> | ->]]; reflexivity.
Qed.

Lemma loop_rate_limited_retry header respBody :
  http.result rt = http.DoResp 429 header (http.ReadOK respBody) ->
  n < maxRetries c - 1 ->
  loop (S k) n rd le =
    emit [sent; Sleep (Int64.mul (retryAfterOf header) time.Second)]
      (loop k (n + 1) rd' le).
Proof.
  intros H Hn. unfold exchange in *. simpl.
  rewrite created. cbv zeta. rewrite H.
  apply Z.ltb_lt in Hn. simpl. rewrite Hn. reflexivity.
Qed.

Lemma loop_rate_limited_last header respBody :
  http.result rt = http.DoResp 429 header (http.ReadOK respBody) ->
  maxRetries c - 1 <= n ->
  loop (S k) n rd le =
    (inr (NewRateLimitError (retryAfterOf header)), [sent]).
Proof.
  intros H Hn. unfold exchange in *. simpl.
  rewrite created. cbv zeta. rewrite H.
  apply Z.ltb_ge in Hn. simpl. rewrite Hn. reflexivity.
Qed.

Lemma loop_other status header respBody :
  http.result rt = http.DoResp status header (http.ReadOK respBody) ->
  other_status status = true ->
  loop (S k) n rd le =
    emit [sent] (loop k (n + 1) rd' (Some (APIError status respBody))).
Proof.
  intros H Hs. unfold exchange in *. simpl.
  rewrite created. cbv zeta. rewrite H.
  unfold other_status in Hs.
  repeat (apply andb_prop in Hs as [Hs ?]).
  repeat match goal with
         | E : negb ?b = true |- _ => apply negb_true_iff in E; rewrite E
         end.
  reflexivity.
Qed.

End Iteration.

End Loop.

(** ** Whole runs of the loop *)

Lemma other_status_intro (status : Z) :
  ~ 200 <= status < 300 -> status <> 401 -> status <> 404 ->
  status <> 422 -> status <> 429 -> other_status status = true.
Proof.
  intros H2 H401 H404 H422 H429. unfold other_status.
  repeat (apply andb_true_intro; split); apply negb_true_iff;
    try (apply Z.eqb_neq; assumption).
  destruct (200 <=? status) eqn:E1; [| reflexivity].
  destruct (status <? 300) eqn:E2; [| reflexivity].
  apply Z.leb_le in E1. apply Z.ltb_lt in E2. lia.
Qed.

Lemma other_status_elim (status : Z) :
  other_status status = true ->
  ~ 200 <= status < 300 /\ status <> 401 /\ status <> 404 /\
  status <> 422 /\ status <> 429.
Proof.
  unfold other_status. intros H.
  repeat (apply andb_prop in H as [H ?]).
  repeat match goal with
         | E : negb _ = true |- _ => apply negb_true_iff in E
         end.
  repeat split; try (apply Z.eqb_neq; assumption).
  intros [Ha Hb]. apply Z.leb_le in Ha. apply Z.ltb_lt in Hb.
  rewrite Ha, Hb in H. discriminate.
Qed.

Lemma fst_emit evs o : fst (emit evs o) = fst o.
Proof. reflexivity. Qed.

Lemma snd_emit evs o : snd (emit evs o) = evs ++ snd o.
Proof. reflexivity. Qed.

Section Runs.

Variables (st : http.Stack) (c : Client) (method endpoint u : string).

Local Abbreviation loop := (attempts st c method endpoint u).
Local Abbreviation create := 
  (http.NewRequestWithContext (http.parse_err st) method u).

(** An iteration either cannot create its request and returns with no
    event, or sends it and then returns, or sends it and goes on to the
    next iteration after at most one sleep. *)
Lemma loop_shape k n rd le :
  (exists err, create rd = inr err /\
     loop (S k) n rd le =
       (inr (NewConnectionError "failed to create request" err), []))
  \/
  (exists req0, create rd = inl req0 /\
     let rt := exchange st c n req0 in
     let sent := Send n (withHeaders c req0) (http.result rt) in
     ((exists r, loop (S k) n rd le = (r, [sent]))
      \/
      (exists sl le',
         (sl = [] \/ exists d, sl = [Sleep d]) /\
         loop (S k) n rd le =
           emit (sent :: sl)
             (loop k (n + 1)
                (bytes.advance (http.consumed rt) <$> rd) le')))).
Proof.
  destruct (create rd) as [req0 | err] eqn:Hc.
  2: { left. exists err. split; [reflexivity |].
       now apply loop_create_fails. }
  right. exists req0. split; [reflexivity |]. cbv zeta.
  destruct (http.result (exchange st c n req0))
    as [d | status header [respBody | d]] eqn:Hres.
  - right. eexists [Sleep _], _. split; [right; eexists; reflexivity |].
    erewrite loop_transport_failure by eassumption. rewrite Hres. reflexivity.
  - destruct (decide (200 <= status < 300)) as [H2 | H2].
    { left. eexists. erewrite loop_success by eassumption.
      rewrite Hres. reflexivity. }
    destruct (decide (status = 401 \/ status = 404 \/ status = 422))
      as [Ht | Ht].
    { left. eexists. erewrite loop_terminal by eassumption.
      rewrite Hres. reflexivity. }
    destruct (decide (status = 429)) as [-> | H429].
    { destruct (decide (n < maxRetries c - 1)) as [Hn | Hn].
      - right. eexists [Sleep _], _. split; [right; eexists; reflexivity |].
        erewrite loop_rate_limited_retry by eassumption.
        rewrite Hres. reflexivity.
      - left. eexists. erewrite loop_rate_limited_last by (eassumption || lia).
        rewrite Hres. reflexivity. }
    right. exists [], (Some (APIError status respBody)).
    split; [left; reflexivity |].
    erewrite loop_other; [rewrite Hres; reflexivity | eassumption..|].
    apply other_status_intro; tauto.
  - right. eexists [], _. split; [left; reflexivity |].
    erewrite loop_read_failure by eassumption. rewrite Hres. reflexivity.
Qed.

(** When its request can be created an iteration starts with a send. *)
Lemma loop_starts_with_send k n rd le req0 :
  create rd = inl req0 ->
  exists r req res post, loop (S k) n rd le = (r, Send n req res :: post).
Proof.
  intros Hc.
  destruct (loop_shape k n rd le)
    as [(err & Hc' & _) | (req1 & _ & [(r & E) | (sl & le' & _ & E)])].
  - congruence.
  - rewrite E. eauto.
  - rewrite E. unfold emit. simpl. eauto.
Qed.

(** The first event of an iteration tells what the iteration sent. *)
Lemma loop_first_send k n rd le m req res post :
  snd (loop (S k) n rd le) = Send m req res :: post ->
  exists req0,
    create rd = inl req0 /\ m = n /\ req = withHeaders c req0 /\
    res = http.result (exchange st c n req0).
Proof.
  intros H.
  destruct (loop_shape k n rd le)
    as [(err & _ & E) | (req0 & Hc & [(r' & E) | (sl & le' & _ & E)])];
    rewrite E in H.
  - discriminate.
  - inversion H; subst. exists req0. auto.
  - rewrite snd_emit in H. simpl in H. inversion H; subst.
    exists req0. auto.
Qed.

(** Every send in the trace of a run is the first event of the run of
    the loop from some later state, which has the same result and the
    same events from that send on. *)
Lemma loop_suffix k : forall n rd le pre m req res post,
  snd (loop k n rd le) = pre ++ Send m req res :: post ->
  exists k' rd' le',
    Z.of_nat k' + 1 + m = Z.of_nat k + n /\ n <= m /\
    loop (S k') m rd' le' = (fst (loop k n rd le), Send m req res :: post).
Proof.
  induction k as [|k IH]; intros n rd le pre m req res post H.
  { rewrite loop_O in H. destruct le; simpl in H;
      destruct pre; discriminate. }
  destruct pre as [|ev pre].
  { rewrite app_nil_l in H.
    destruct (loop_first_send _ _ _ _ _ _ _ _ H) as (req0 & _ & -> & _).
    exists k, rd, le. repeat split; try lia.
    rewrite (surjective_pairing (loop (S k) n rd le)) at 1.
    rewrite H. reflexivity. }
  destruct (loop_shape k n rd le)
    as [(err & _ & E) | (req0 & Hc & [(r & E) | (sl & le' & Hsl & E)])].
  - rewrite E in H. discriminate.
  - rewrite E in H. simpl in H. destruct pre; discriminate.
  - rewrite E in H |- *. rewrite snd_emit in H. rewrite fst_emit.
    simpl in H. inversion H as [[Hev Hrest]]. clear H.
    assert (Hin : exists pre',
               snd (loop k (n + 1)
                      (bytes.advance
                         (http.consumed (exchange st c n req0)) <$> rd)
                      le')
               = pre' ++ Send m req res :: post).
    { destruct Hsl as [-> | (d & ->)]; simpl in Hrest.
      - exists pre. exact Hrest.
      - destruct pre as [|ev2 pre]; simpl in Hrest; [discriminate |].
        inversion Hrest as [[Hsl Hin]]. exists pre. exact Hin. }
    destruct Hin as (pre' & Hin).
    destruct (IH _ _ _ _ _ _ _ _ Hin) as (k' & rd' & le'' & Hk & Hm & E').
    exists k', rd', le''. repeat split; try lia. exact E'.
Qed.

End Runs.

(** ** Calls of [request] *)

(** A call either fails to marshal its body, with no event, or runs the
    loop from attempt 0 with no error recorded. *)
Lemma request_cases st c method endpoint body params :
  (exists d,
     body = Some (Unsupported d) /\
     request st c method endpoint body params =
       (inr (NewConnectionError "failed to marshal request body"
               (MarshalFailure d)), []))
  \/
  (exists rd,
     request st c method endpoint body params =
       attempts st c method endpoint (fullURL c endpoint params)
         (Z.to_nat (maxRetries c)) 0 rd None).
Proof.
  unfold request. destruct body as [[j | d] |]; simpl.
  - right. eexists. reflexivity.
  - left. exists d. split; reflexivity.
  - right. eexists. reflexivity.
Qed.

(** Every send of a call is the first event of a run of the loop that
    has the call's result and the call's events from that send on;
    the iterations left, this one included, are the budget minus the
    attempt number. *)
Lemma request_suffix st c method endpoint body params pre m req res post :
  snd (request st c method endpoint body params)
    = pre ++ Send m req res :: post ->
  exists k' rd' le',
    Z.of_nat k' + 1 + m = maxRetries c /\ 0 <= m /\
    attempts st c method endpoint (fullURL c endpoint params)
      (S k') m rd' le'
    = (fst (request st c method endpoint body params),
       Send m req res :: post).
Proof.
  intros H.
  destruct (request_cases st c method endpoint body params)
    as [(d & _ & E) | (rd & E)]; rewrite E in H |- *.
  - destruct pre; discriminate.
  - destruct (loop_suffix _ _ _ _ _ _ _ _ _ _ _ _ _ _ H)
      as (k' & rd' & le' & Hk & Hm & E').
    exists k', rd', le'. repeat split; try lia. exact E'.
Qed.

(** C1 (as the code has it). A response whose status is outside 200..299
    and is none of 401, 404, 422, 429 ends the call only when it answers
    the last attempt of the budget: then nothing follows it and the call
    returns the Api error of that status and body. On an earlier attempt the
    error is only recorded and the next attempt follows at once, with no
    sleep in between. *)
Theorem other_statuses_retried_at_once (st : http.Stack) (c : Client)
    (method endpoint : string) (body : option Payload) (params : url.Values)
    (pre post : list Event) (m : Z) (req : http.Request)
    (status : Z) (header : http.Header) (respBody : string) :
  snd (request st c method endpoint body params)
    = pre ++
      Send m req (http.DoResp status header (http.ReadOK respBody)) :: post ->
  other_status status = true ->
  (m = maxRetries c - 1 /\ post = [] /\
   fst (request st c method endpoint body params)
     = inr (APIError status respBody))
  \/
  (m < maxRetries c - 1 /\
   exists req' res' post', post = Send (m + 1) req' res' :: post').
Proof.
  intros H Hs.
  destruct (request_suffix _ _ _ _ _ _ _ _ _ _ _ H)
    as (k' & rd' & le' & Hk & _ & E).
  pose proof (f_equal snd E) as Hsnd. cbn [snd] in Hsnd.
  destruct (loop_first_send _ _ _ _ _ _ _ _ _ _ _ _ _ Hsnd)
    as (req0 & Hc & _ & _ & Hres).
  rewrite (loop_other _ _ _ _ _ _ _ _ _ _ Hc _ _ _ (eq_sym Hres) Hs) in E.
  pose proof (f_equal fst E) as Hf. rewrite fst_emit in Hf. cbn [fst] in Hf.
  pose proof (f_equal snd E) as Hp. rewrite snd_emit in Hp. cbn [snd] in Hp.
  cbn [app] in Hp. inversion Hp as [[Hev Hpost]]. clear Hp.
  destruct k' as [|k''].
  - left. rewrite loop_O in Hf.
    split; [lia |]. split; [reflexivity |]. symmetry. exact Hf.
  - right. split; [lia |].
    destruct (create_again st method (fullURL c endpoint params) rd'
                (bytes.advance (http.consumed (exchange st c m req0)) <$> rd')
                req0 Hc) as (req1 & Hc1).
    destruct (loop_starts_with_send st c method endpoint _ k'' (m + 1) _
                (Some (APIError status respBody)) req1 Hc1)
      as (r & req' & res' & post' & E').
    exists req', res', post'. rewrite E'. reflexivity.
Qed.

Lemma other_statuses_retried_at_once_witness :
  snd (Get (always (http.DoResp 500 ∅ (http.ReadOK "boom")))
         sample_client "/health" ∅)
    = [] ++
      Send 0 (sample_request "GET" "/health" "")
        (http.DoResp 500 ∅ (http.ReadOK "boom"))
      :: [Send 1 (sample_request "GET" "/health" "")
            (http.DoResp 500 ∅ (http.ReadOK "boom"));
          Send 2 (sample_request "GET" "/health" "")
            (http.DoResp 500 ∅ (http.ReadOK "boom"))] /\
  0 < maxRetries sample_client - 1 /\
  exists req' res' post',
    [Send 1 (sample_request "GET" "/health" "")
       (http.DoResp 500 ∅ (http.ReadOK "boom"));
     Send 2 (sample_request "GET" "/health" "")
       (http.DoResp 500 ∅ (http.ReadOK "boom"))]
    = Send (0 + 1) req' res' :: post'.
Proof.
  assert (H : snd (Get (always (http.DoResp 500 ∅ (http.ReadOK "boom")))
                     sample_client "/health" ∅)
    = [] ++
      Send 0 (sample_request "GET" "/health" "")
        (http.DoResp 500 ∅ (http.ReadOK "boom"))
      :: [Send 1 (sample_request "GET" "/health" "")
            (http.DoResp 500 ∅ (http.ReadOK "boom"));
          Send 2 (sample_request "GET" "/health" "")
            (http.DoResp 500 ∅ (http.ReadOK "boom"))])
    by (vm_compute; reflexivity).
  split; [exact H |].
  destruct (other_statuses_retried_at_once _ _ _ _ _ _ _ _ _ _ _ _ _ H
              eq_refl) as [(Hm & _) | Hnext].
  - vm_compute in Hm. discriminate.
  - exact Hnext.
Defined.

(** C1 fails as stated: with the default budget of three attempts, a 500
    on the first attempt is followed by two more attempts, and the error
    returned is that of the last response, not of the first. *)
Lemma server_error_is_retried :
  Get (scripted [http.DoResp 500 ∅ (http.ReadOK "first");
                 http.DoResp 503 ∅ (http.ReadOK "second")]
         (http.DoResp 502 ∅ (http.ReadOK "third")))
    sample_client "/health" ∅
  = (inr (APIError 502 "third"),
     [Send 0 (sample_request "GET" "/health" "")
        (http.DoResp 500 ∅ (http.ReadOK "first"));
      Send 1 (sample_request "GET" "/health" "")
        (http.DoResp 503 ∅ (http.ReadOK "second"));
      Send 2 (sample_request "GET" "/health" "")
        (http.DoResp 502 ∅ (http.ReadOK "third"))]).
Proof. vm_compute. reflexivity. Qed.

(** ** Transport failures *)

(** A failed [Do] is followed by a sleep of [1<<attempt] seconds on every
    attempt, the last one of the budget included; after that sleep the
    next attempt follows, or, on the last attempt, the call returns the
    Connection error. *)
Lemma transport_failure_response st c method endpoint body params
    pre post m req d :
  snd (request st c method endpoint body params)
    = pre ++ Send m req (http.DoErr d) :: post ->
  exists post',
    post = Sleep (Int64.mul (Int64.shl 1 m) time.Second) :: post' /\
    ((m = maxRetries c - 1 /\ post' = [] /\
      fst (request st c method endpoint body params)
        = inr (NewConnectionError "request failed" (TransportFailure d)))
     \/
     (m < maxRetries c - 1 /\
      exists req' res' post'', post' = Send (m + 1) req' res' :: post'')).
Proof.
  intros H.
  destruct (request_suffix _ _ _ _ _ _ _ _ _ _ _ H)
    as (k' & rd' & le' & Hk & _ & E).
  pose proof (f_equal snd E) as Hsnd. cbn [snd] in Hsnd.
  destruct (loop_first_send _ _ _ _ _ _ _ _ _ _ _ _ _ Hsnd)
    as (req0 & Hc & _ & _ & Hres).
  rewrite (loop_transport_failure _ _ _ _ _ _ _ _ _ _ Hc _ (eq_sym Hres))
    in E.
  pose proof (f_equal fst E) as Hf. rewrite fst_emit in Hf. cbn [fst] in Hf.
  pose proof (f_equal snd E) as Hp. rewrite snd_emit in Hp. cbn [snd] in Hp.
  cbn [app] in Hp. inversion Hp as [[Hev Hpost]]. clear Hp.
  eexists. split; [reflexivity |].
  destruct k' as [|k''].
  - left. rewrite loop_O in Hf |- *.
    split; [lia |]. split; [reflexivity |]. symmetry. exact Hf.
  - right. split; [lia |].
    destruct (create_again st method (fullURL c endpoint params) rd'
                (bytes.advance (http.consumed (exchange st c m req0)) <$> rd')
                req0 Hc) as (req1 & Hc1).
    destruct (loop_starts_with_send st c method endpoint _ k'' (m + 1) _
                (Some (NewConnectionError "request failed"
                         (TransportFailure d))) req1 Hc1)
      as (r & req' & res' & post' & E').
    exists req', res', post'. rewrite E'. reflexivity.
Qed.

(** C4, at the input where the code leaves the claim. With three
    attempts that all fail in the transport the call makes three attempts
    and returns the Connection error, but it sleeps three times, 1, 2 and 4
    seconds: the 4 seconds come after the last attempt, where the claim has
    no sleep. *)
Theorem last_failure_still_sleeps :
  Get (always (http.DoErr "connection refused")) sample_client "/health" ∅
  = (inr (NewConnectionError "request failed"
            (TransportFailure "connection refused")),
     [Send 0 (sample_request "GET" "/health" "")
        (http.DoErr "connection refused");
      Sleep (1 * time.Second);
      Send 1 (sample_request "GET" "/health" "")
        (http.DoErr "connection refused");
      Sleep (2 * time.Second);
      Send 2 (sample_request "GET" "/health" "")
        (http.DoErr "connection refused");
      Sleep (4 * time.Second)]).
Proof. vm_compute. reflexivity. Qed.

(** ** Rate limiting *)

Lemma retryAfterOf_absent header :
  http.Get header "Retry-After" = "" -> retryAfterOf header = 1.
Proof. intros H. unfold retryAfterOf. rewrite H. reflexivity. Qed.

Lemma retryAfterOf_unparsable header :
  strconv.Atoi (http.Get header "Retry-After") = None ->
  retryAfterOf header = 1.
Proof.
  intros H. unfold retryAfterOf. rewrite H.
  destruct (String.eqb _ _); reflexivity.
Qed.

Lemma retryAfterOf_parsed header v :
  strconv.Atoi (http.Get header "Retry-After") = Some v ->
  retryAfterOf header = v.
Proof.
  intros H. unfold retryAfterOf. rewrite H.
  destruct (String.eqb _ _) eqn:E; [| reflexivity].
  apply String.eqb_eq in E. rewrite E in H. discriminate.
Qed.

(** A 429 on an attempt before the last is followed by a sleep of the
    [Retry-After] value times [time.Second], in 64-bit arithmetic, and then
    by the next attempt; a 429 on the last attempt ends the call with the
    RateLimit error carrying the value of that response. *)
Lemma rate_limited_response st c method endpoint body params
    pre post m req header respBody :
  snd (request st c method endpoint body params)
    = pre ++
      Send m req (http.DoResp 429 header (http.ReadOK respBody)) :: post ->
  (m < maxRetries c - 1 /\
   exists req' res' post',
     post = Sleep (Int64.mul (retryAfterOf header) time.Second)
            :: Send (m + 1) req' res' :: post')
  \/
  (m = maxRetries c - 1 /\ post = [] /\
   fst (request st c method endpoint body params)
     = inr (NewRateLimitError (retryAfterOf header))).
Proof.
  intros H.
  destruct (request_suffix _ _ _ _ _ _ _ _ _ _ _ H)
    as (k' & rd' & le' & Hk & _ & E).
  pose proof (f_equal snd E) as Hsnd. cbn [snd] in Hsnd.
  destruct (loop_first_send _ _ _ _ _ _ _ _ _ _ _ _ _ Hsnd)
    as (req0 & Hc & _ & _ & Hres).
  destruct k' as [|k''].
  - right.
    rewrite (loop_rate_limited_last _ _ _ _ _ _ _ _ _ _ Hc _ _
               (eq_sym Hres)) in E by lia.
    pose proof (f_equal fst E) as Hf. cbn [fst] in Hf.
    pose proof (f_equal snd E) as Hp. cbn [snd] in Hp.
    split; [lia |]. split; [inversion Hp; reflexivity | symmetry; exact Hf].
  - left. split; [lia |].
    rewrite (loop_rate_limited_retry _ _ _ _ _ _ _ _ _ _ Hc _ _
               (eq_sym Hres)) in E by lia.
    pose proof (f_equal snd E) as Hp. rewrite snd_emit in Hp. cbn [snd] in Hp.
    cbn [app] in Hp. apply (f_equal (@tl Event)) in Hp. cbn [tl] in Hp.
    rewrite <- Hp.
    destruct (create_again st method (fullURL c endpoint params) rd'
                (bytes.advance (http.consumed (exchange st c m req0)) <$> rd')
                req0 Hc) as (req1 & Hc1).
    destruct (loop_starts_with_send st c method endpoint _ k'' (m + 1) _
                le' req1 Hc1)
      as (r & req' & res' & post' & E').
    exists req', res', post'. rewrite E'. reflexivity.
Qed.

(** C6, at the input where the code leaves the claim. A 429 whose
    Retry-After header reads 10000000000 is parsed to that number, but the
    duration handed to the sleep is that number of seconds wrapped around in
    64 bits, a negative duration, for which the sleep returns at once: the
    retries follow without the ten billion seconds of wait. The three
    attempts and the RateLimit error with the last value are as claimed. *)
Theorem retry_after_overflows :
  retryAfterOf (retry_after "10000000000") = 10000000000 /\
  Get (always (http.DoResp 429 (retry_after "10000000000")
                 (http.ReadOK "slow down")))
    sample_client "/tasks" ∅
  = (inr (NewRateLimitError 10000000000),
     [Send 0 (sample_request "GET" "/tasks" "")
        (http.DoResp 429 (retry_after "10000000000")
           (http.ReadOK "slow down"));
      Sleep (-8446744073709551616);
      Send 1 (sample_request "GET" "/tasks" "")
        (http.DoResp 429 (retry_after "10000000000")
           (http.ReadOK "slow down"));
      Sleep (-8446744073709551616);
      Send 2 (sample_request "GET" "/tasks" "")
        (http.DoResp 429 (retry_after "10000000000")
           (http.ReadOK "slow down"))]).
Proof. split; vm_compute; reflexivity. Qed.

(** ** The request of each attempt *)

(** X24. Every attempt of a call is made with the same method and the
    same headers: the method given (GET when it is empty) and a header map
    that holds exactly the three headers the client sets, the bearer
    credential among them. *)
Lemma sent_request_fixed_part st c method endpoint body params
    pre post m req res :
  snd (request st c method endpoint body params)
    = pre ++ Send m req res :: post ->
  http.Method req = (if String.eqb method "" then "GET" else method) /\
  http.Hdr req =
    http.Set_
      (http.Set_
         (http.Set_ ∅ "Authorization" ("Bearer " +:+ apiKey c))
         "Content-Type" "application/json")
      "User-Agent" "blackroad-go/1.0.0".
Proof.
  intros H.
  destruct (request_suffix _ _ _ _ _ _ _ _ _ _ _ H)
    as (k' & rd' & le' & _ & _ & E).
  pose proof (f_equal snd E) as Hsnd. cbn [snd] in Hsnd.
  destruct (loop_first_send _ _ _ _ _ _ _ _ _ _ _ _ _ Hsnd)
    as (req0 & Hc & _ & -> & _).
  unfold http.NewRequestWithContext in Hc.
  destruct (negb _); [discriminate |].
  destruct (http.parse_err st _); [discriminate |].
  inversion Hc; subst req0. split; reflexivity.
Qed.

(** C2, at the input where the code leaves the claim. A heartbeat with
    the body [{}] is answered 429 and then 200. The first attempt sends the
    two bytes of the body; the retry is built from the same reader, which the
    first attempt has read to its end, and goes out with an empty body and a
    content length of 0. *)
Theorem retry_sends_empty_body :
  sent_requests
    (snd (Post (scripted [http.DoResp 429 ∅ (http.ReadOK "slow down")]
                  (http.DoResp 200 ∅ (http.ReadOK "{}")))
            sample_client "/agents/a1/heartbeat" (Some (Marshals "{}"))))
  = [sample_request "POST" "/agents/a1/heartbeat" "{}";
     sample_request "POST" "/agents/a1/heartbeat" ""] /\
  http.Body (sample_request "POST" "/agents/a1/heartbeat" "{}") = "{}" /\
  http.Body (sample_request "POST" "/agents/a1/heartbeat" "") = "" /\
  sample_request "POST" "/agents/a1/heartbeat" "{}"
    <> sample_request "POST" "/agents/a1/heartbeat" "".
Proof.
  split; [vm_compute; reflexivity |].
  split; [reflexivity |]. split; [reflexivity |].
  intros H. apply (f_equal http.Body) in H. discriminate.
Qed.

(** ** Zero and negative retry counts *)

(** With a negative budget the loop body never runs. *)
Lemma negative_budget_no_iteration st c method endpoint u rd le :
  maxRetries c < 0 ->
  attempts st c method endpoint u (Z.to_nat (maxRetries c)) 0 rd le =
    match le with
    | Some e => (inr e, [])
    | None => (inr ExhaustedError, [])
    end.
Proof.
  intros H. replace (Z.to_nat (maxRetries c)) with O by lia. reflexivity.
Qed.

(** C10 (as the code has it). A retry count of 0 is replaced by the
    default 3. A negative retry count is kept as it is, and then no call
    sends or sleeps: a call whose body is absent or marshals to JSON returns
    the plain error "max retries exceeded", and a call whose body cannot be
    marshalled returns the Connection error "failed to marshal request
    body". *)
Theorem zero_and_negative_retries (env : os.Environ)
    (config : option ClientConfig) (c : Client) :
  NewClient env config = inl c ->
  (MaxRetries (default zeroConfig config) = 0 -> maxRetries c = 3) /\
  (MaxRetries (default zeroConfig config) < 0 ->
   maxRetries c = MaxRetries (default zeroConfig config) /\
   forall st method endpoint body params,
     snd (request st c method endpoint body params) = [] /\
     ((forall d, body <> Some (Unsupported d)) ->
      fst (request st c method endpoint body params)
        = inr (BaseError {| Message := "max retries exceeded";
                            Code := ""; StatusCode := 0 |})) /\
     (forall d, body = Some (Unsupported d) ->
      fst (request st c method endpoint body params)
        = inr (NewConnectionError "failed to marshal request body"
                 (MarshalFailure d)))).
Proof.
  intros H.
  destruct (NewClient_fields _ _ _ H) as (_ & _ & _ & _ & Hmax).
  split.
  { intros H0. rewrite Hmax, H0. reflexivity. }
  intros Hneg.
  assert (Hkeep : maxRetries c = MaxRetries (default zeroConfig config)).
  { rewrite Hmax. destruct (Z.eqb_spec (MaxRetries (default zeroConfig config)) 0);
      [lia | reflexivity]. }
  split; [exact Hkeep |].
  intros st method endpoint body params.
  assert (Hc : maxRetries c < 0) by lia.
  destruct body as [[j | d] |]; unfold request; simpl json_Marshal; cbv iota;
    rewrite ?negative_budget_no_iteration by exact Hc.
  - repeat split; try reflexivity. intros d Hd. discriminate.
  - repeat split; try reflexivity.
    + intros Hno. exfalso. apply (Hno d). reflexivity.
    + intros d' Hd. inversion Hd. reflexivity.
  - repeat split; try reflexivity. intros d Hd. discriminate.
Qed.

Lemma zero_and_negative_retries_witness :
  NewClient ∅ (Some (keyed (-1))) = inl (with_maxRetries (-1) sample_client) /\
  maxRetries (with_maxRetries (-1) sample_client) = -1 /\
  Get (always (http.DoResp 200 ∅ (http.ReadOK "ok")))
    (with_maxRetries (-1) sample_client) "/health" ∅
  = (inr (BaseError {| Message := "max retries exceeded";
                       Code := ""; StatusCode := 0 |}), []).
Proof.
  assert (H : NewClient ∅ (Some (keyed (-1)))
              = inl (with_maxRetries (-1) sample_client))
    by (vm_compute; reflexivity).
  destruct (zero_and_negative_retries ∅ (Some (keyed (-1))) _ H)
    as (_ & Hneg).
  destruct (Hneg ltac:(simpl; lia)) as (Hkeep & Hcalls).
  destruct (Hcalls (always (http.DoResp 200 ∅ (http.ReadOK "ok")))
              "GET" "/health" None ∅) as (Hquiet & Hplain & _).
  split; [exact H |]. split; [exact Hkeep |].
  unfold Get.
  rewrite (surjective_pairing (request _ _ _ _ _ _)).
  rewrite Hquiet, Hplain; [reflexivity | intros d Hd; discriminate].
Defined.

(** C10 fails as stated: with a retry count of -1, a heartbeat whose load
    is infinite, which JSON cannot hold, does not return "max retries
    exceeded" but the Connection error of the failed marshalling. *)
Lemma negative_budget_marshal_error :
  NewClient ∅ (Some (keyed (-1))) = inl (with_maxRetries (-1) sample_client) /\
  Post (always (http.DoResp 200 ∅ (http.ReadOK "ok")))
    (with_maxRetries (-1) sample_client) "/agents/a1/heartbeat"
    (Some (Unsupported "json: unsupported value: +Inf"))
  = (inr (NewConnectionError "failed to marshal request body"
            (MarshalFailure "json: unsupported value: +Inf")), []) /\
  NewConnectionError "failed to marshal request body"
    (MarshalFailure "json: unsupported value: +Inf")
  <> BaseError {| Message := "max retries exceeded";
                  Code := ""; StatusCode := 0 |}.
Proof.
  split; [vm_compute; reflexivity |].
  split; [vm_compute; reflexivity | discriminate].
Qed.

(** ** The query string ([url.Values.Encode]) *)

Lemma concat_head_append (sep a b : string) (l : list string) :
  String.concat sep ((a +:+ b) :: l) = a +:+ String.concat sep (b :: l).
Proof.
  destruct l as [|y l]; [reflexivity |].
  change (String.concat sep ((a +:+ b) :: y :: l))
    with ((a +:+ b) +:+ sep +:+ String.concat sep (y :: l)).
  change (String.concat sep (b :: y :: l))
    with (b +:+ sep +:+ String.concat sep (y :: l)).
  apply append_assoc.
Qed.

Lemma nonempty_length (s : string) : s <> "" -> (0 <? String.length s)%nat = true.
Proof. destruct s; [congruence | reflexivity]. Qed.

Lemma append_nonempty_l (a b : string) : a <> "" -> a +:+ b <> "".
Proof. destruct a; [congruence | discriminate]. Qed.

(** Appending pairs to a buffer that holds something joins them with
    [&]. *)
Lemma fold_append_pair (ps : list string) : forall buf,
  buf <> "" ->
  fold_left append_pair ps buf = String.concat "&" (buf :: ps).
Proof.
  induction ps as [|p ps IH]; intros buf Hbuf; [reflexivity |].
  cbn [fold_left]. unfold append_pair at 2.
  rewrite (nonempty_length _ Hbuf).
  rewrite IH by (apply append_nonempty_l, append_nonempty_l, Hbuf).
  rewrite append_assoc, concat_head_append, concat_head_append.
  destruct ps; reflexivity.
Qed.

Lemma fold_append_pair_empty (ps : list string) :
  Forall (fun p => p <> "") ps ->
  fold_left append_pair ps "" = String.concat "&" ps.
Proof.
  destruct ps as [|p ps]; [reflexivity |].
  intros H. apply Forall_cons in H as [Hp _].
  cbn [fold_left]. unfold append_pair at 2. cbn [String.length Nat.ltb Nat.leb].
  rewrite append_nil_l. now apply fold_append_pair.
Qed.

(** The values of one key go to the buffer as its pairs. *)
Lemma write_key_pairs (v : url.Values) (key : string) (buf : string) :
  url.write_key v buf key =
    fold_left append_pair
      (map (fun value =>
              url.QueryEscape key +:+ "=" +:+ url.QueryEscape value)
           (default [] (v !! key)))
      buf.
Proof.
  unfold url.write_key. generalize (default [] (v !! key)) as vs. intros vs.
  revert buf. induction vs as [|x vs IH]; intros buf; [reflexivity |].
  cbn [fold_left map]. rewrite IH. reflexivity.
Qed.

Lemma write_keys_pairs (v : url.Values) (keys : list string) : forall buf,
  fold_left (url.write_key v) keys buf =
    fold_left append_pair
      (flat_map
         (fun key =>
            map (fun value =>
                   url.QueryEscape key +:+ "=" +:+ url.QueryEscape value)
                (default [] (v !! key)))
         keys)
      buf.
Proof.
  induction keys as [|key keys IH]; intros buf; [reflexivity |].
  cbn [fold_left flat_map]. rewrite fold_left_app, IH, write_key_pairs.
  reflexivity.
Qed.

Lemma query_pairs_nonempty (v : url.Values) :
  Forall (fun p => p <> "") (query_pairs v).
Proof.
  unfold query_pairs. apply Forall_forall. intros p Hp.
  apply list_elem_of_In, in_flat_map in Hp as (key & _ & Hp).
  apply in_map_iff in Hp as (value & <- & _).
  intros E. apply (f_equal String.length) in E.
  rewrite !length_append in E. simpl in E. lia.
Qed.

(** [Encode] is the pairs of [query_pairs] joined with [&]. *)
Lemma Encode_pairs (v : url.Values) :
  url.Encode v = String.concat "&" (query_pairs v).
Proof.
  unfold url.Encode.
  destruct (size v =? 0)%nat eqn:E.
  - apply Nat.eqb_eq, map_size_empty_iff in E. subst v.
    reflexivity.
  - rewrite write_keys_pairs. apply fold_append_pair_empty.
    apply query_pairs_nonempty.
Qed.

Lemma sorted_keys_elem (v : url.Values) (key : string) :
  key ∈ url.sorted_keys v <-> is_Some (v !! key).
Proof.
  unfold url.sorted_keys. rewrite merge_sort_Permutation.
  rewrite list_elem_of_fmap. split.
  - intros ([k x] & -> & Hin). apply elem_of_map_to_list in Hin.
    simpl. eauto.
  - intros [x Hx]. exists (key, x). split; [reflexivity |].
    now apply elem_of_map_to_list.
Qed.

(** The order of two [Set] calls on different keys leaves no mark on the
    map, hence none on the query string. *)
Lemma Set_order_irrelevant (v : url.Values) (k1 x1 k2 x2 : string) :
  k1 <> k2 ->
  url.Encode (url.Set_ (url.Set_ v k1 x1) k2 x2) =
  url.Encode (url.Set_ (url.Set_ v k2 x2) k1 x1).
Proof.
  intros H. unfold url.Set_. rewrite insert_insert_ne by congruence.
  reflexivity.
Qed.

(** C3 (as the code has it). The query string is the [key=value] pairs
    joined with [&], the keys in ascending byte-wise order, each key of the
    map once, whatever the order they were set in. For status = pending and
    limit = 10 set in that order, the query string is
    [limit=10&status=pending]: limit comes first, and both values appear
    as they are. *)
Theorem query_keys_in_sorted_order (v : url.Values) :
  url.Encode v = String.concat "&" (query_pairs v) /\
  StronglySorted String.le (url.sorted_keys v) /\
  NoDup (url.sorted_keys v) /\
  (forall key, key ∈ url.sorted_keys v <-> is_Some (v !! key)) /\
  url.Encode status_then_limit = "limit=10&status=pending" /\
  url.QueryEscape "pending" = "pending" /\
  url.QueryEscape "10" = "10" /\
  fullURL sample_client "/tasks" status_then_limit
    = "https://api.blackroad.io/v1/tasks?limit=10&status=pending".
Proof.
  split; [apply Encode_pairs |].
  split; [apply StronglySorted_merge_sort; apply _ |].
  split.
  { unfold url.sorted_keys. rewrite merge_sort_Permutation.
    apply NoDup_fst_map_to_list. }
  split; [apply sorted_keys_elem |].
  repeat split; vm_compute; reflexivity.
Qed.

Lemma query_keys_in_sorted_order_witness :
  url.Encode status_then_limit
    = String.concat "&" (query_pairs status_then_limit) /\
  url.sorted_keys status_then_limit = ["limit"; "status"].
Proof.
  split.
  - apply (query_keys_in_sorted_order status_then_limit).
  - vm_compute. reflexivity.
Defined.

(** C3 fails as stated: with status set before limit, the query string
    has limit at offset 0 and status after it, at offset 9. *)
Lemma insertion_order_not_kept :
  status_then_limit = set_all [("status", "pending"); ("limit", "10")] /\
  url.Encode status_then_limit = "limit=10&status=pending" /\
  String.index 0 "limit" (url.Encode status_then_limit) = Some 0%nat /\
  String.index 0 "status" (url.Encode status_then_limit) = Some 9%nat /\
  url.Encode status_then_limit <> "status=pending&limit=10".
Proof.
  split; [reflexivity |].
  split; [vm_compute; reflexivity |].
  split; [vm_compute; reflexivity |].
  split; [vm_compute; reflexivity |].
  vm_compute. discriminate.
Qed.

(** ** A transport that fails on every attempt *)

Lemma count_sends_send n req res evs :
  count_sends (Send n req res :: evs) = S (count_sends evs).
Proof. reflexivity. Qed.

Lemma count_sends_sleep d evs :
  count_sends (Sleep d :: evs) = count_sends evs.
Proof. reflexivity. Qed.

(** A valid method and a URL that parses are all a request needs. *)
Lemma create_succeeds pe method u rd :
  http.validMethod (if String.eqb method "" then "GET" else method) = true ->
  pe u = None ->
  exists req0, http.NewRequestWithContext pe method u rd = inl req0.
Proof.
  intros Hm Hu. unfold http.NewRequestWithContext.
  rewrite Hm, Hu. simpl. eexists. reflexivity.
Qed.

(** The back-off durations of attempts [n], [n+1], ..., [n+k-1]. *)
Lemma all_failures_loop st c method endpoint u :
  http.validMethod (if String.eqb method "" then "GET" else method) = true ->
  http.parse_err st u = None ->
  (forall n req, exists d, http.result (http.Do st n req) = http.DoErr d) ->
  forall k n rd le,
    0 <= n -> n + Z.of_nat k <= 34 ->
    count_sends (snd (attempts st c method endpoint u k n rd le)) = k /\
    sleeps (snd (attempts st c method endpoint u k n rd le))
      = map (fun i : nat => 2 ^ (n + Z.of_nat i) * 1000000000) (seq 0 k) /\
    ((0 < k)%nat ->
     exists d,
       fst (attempts st c method endpoint u k n rd le)
         = inr (NewConnectionError "request failed" (TransportFailure d))).
Proof.
  intros Hm Hu Hfail.
  induction k as [|k IH]; intros n rd le Hn Hk.
  { rewrite loop_O. destruct le; repeat split; try reflexivity; lia. }
  destruct (create_succeeds (http.parse_err st) method u rd Hm Hu)
    as (req0 & Hc).
  destruct (Hfail n (withHeaders c req0)) as (d & Hd).
  rewrite (loop_transport_failure st c method endpoint u k n rd le req0 Hc d Hd).
  rewrite snd_emit, fst_emit.
  set (rd' := bytes.advance (http.consumed (exchange st c n req0)) <$> rd).
  set (le' := Some (NewConnectionError "request failed" (TransportFailure d))).
  destruct (IH (n + 1) rd' le' ltac:(lia) ltac:(lia)) as (Hcount & Hsleeps & Hres).
  cbn [app]. rewrite count_sends_send, count_sends_sleep.
  cbn [sleeps]. rewrite Hcount, Hsleeps.
  split; [reflexivity |]. split.
  - cbn [seq map]. rewrite backoff_exact by lia. f_equal.
    + f_equal. f_equal. lia.
    + rewrite <- seq_shift, map_map. apply map_ext. intros i.
      f_equal. f_equal. lia.
  - intros _. destruct k as [|k'].
    + exists d. rewrite loop_O. reflexivity.
    + apply Hres. lia.
Qed.

(** X25. With every [Do] failing, a call on a client with a budget of 1 to 34
    attempts sends exactly that many requests, sleeps [2^n] seconds after
    attempt [n] for every [n] below the budget, the last attempt
    included, and returns the Connection error. *)
Lemma all_transport_failures st c method endpoint body params :
  http.validMethod (if String.eqb method "" then "GET" else method) = true ->
  http.parse_err st (fullURL c endpoint params) = None ->
  (forall d, body <> Some (Unsupported d)) ->
  (forall n req, exists d, http.result (http.Do st n req) = http.DoErr d) ->
  1 <= maxRetries c <= 34 ->
  count_sends (snd (request st c method endpoint body params))
    = Z.to_nat (maxRetries c) /\
  sleeps (snd (request st c method endpoint body params))
    = map (fun i : nat => 2 ^ Z.of_nat i * 1000000000)
        (seq 0 (Z.to_nat (maxRetries c))) /\
  exists d,
    fst (request st c method endpoint body params)
      = inr (NewConnectionError "request failed" (TransportFailure d)).
Proof.
  intros Hm Hu Hbody Hfail Hmax.
  destruct (request_cases st c method endpoint body params)
    as [(d & Hd & _) | (rd & E)].
  { exfalso. exact (Hbody d Hd). }
  rewrite E.
  destruct (all_failures_loop st c method endpoint _ Hm Hu Hfail
              (Z.to_nat (maxRetries c)) 0 rd None ltac:(lia) ltac:(lia))
    as (Hcount & Hsleeps & Hres).
  split; [exact Hcount |]. split; [exact Hsleeps |].
  apply Hres. lia.
Qed.

(** ** A server that always answers 429 *)

Lemma all_rate_limited_loop st c method endpoint u :
  http.validMethod (if String.eqb method "" then "GET" else method) = true ->
  http.parse_err st u = None ->
  (forall n req, exists header respBody,
     http.result (http.Do st n req)
       = http.DoResp 429 header (http.ReadOK respBody)) ->
  forall k n rd le,
    n + Z.of_nat (S k) = maxRetries c ->
    count_sends (snd (attempts st c method endpoint u (S k) n rd le)) = S k /\
    exists req header respBody,
      http.result (http.Do st (maxRetries c - 1) req)
        = http.DoResp 429 header (http.ReadOK respBody) /\
      last (snd (attempts st c method endpoint u (S k) n rd le))
        = Some (Send (maxRetries c - 1) req
                  (http.DoResp 429 header (http.ReadOK respBody))) /\
      fst (attempts st c method endpoint u (S k) n rd le)
        = inr (NewRateLimitError (retryAfterOf header)).
Proof.
  intros Hm Hu Hall.
  induction k as [|k IH]; intros n rd le Hn;
    destruct (create_succeeds (http.parse_err st) method u rd Hm Hu)
      as (req0 & Hc);
    destruct (Hall n (withHeaders c req0)) as (header & respBody & Hres).
  - rewrite (loop_rate_limited_last st c method endpoint u 0 n rd le req0 Hc
               header respBody Hres) by lia.
    split; [reflexivity |].
    exists (withHeaders c req0), header, respBody.
    replace (maxRetries c - 1) with n by lia.
    split; [exact Hres |]. split; [| reflexivity].
    cbn [snd last]. unfold exchange. rewrite Hres. reflexivity.
  - rewrite (loop_rate_limited_retry st c method endpoint u (S k) n rd le
               req0 Hc header respBody Hres) by lia.
    rewrite snd_emit, fst_emit.
    set (rd' := bytes.advance (http.consumed (exchange st c n req0)) <$> rd).
    destruct (IH (n + 1) rd' le ltac:(lia))
      as (Hcount & req & header' & respBody' & Hlast & Hend & Hfst).
    cbn [app]. rewrite count_sends_send, count_sends_sleep, Hcount.
    split; [reflexivity |].
    exists req, header', respBody'.
    split; [exact Hlast |]. split; [| exact Hfst].
    rewrite !last_cons, Hend. reflexivity.
Qed.

(** X26. With every response a 429, a call on a client with a budget of at
    least one attempt sends exactly that many requests and returns the
    RateLimit error with the [Retry-After] value of the last response. *)
Lemma all_rate_limited st c method endpoint body params :
  http.validMethod (if String.eqb method "" then "GET" else method) = true ->
  http.parse_err st (fullURL c endpoint params) = None ->
  (forall d, body <> Some (Unsupported d)) ->
  (forall n req, exists header respBody,
     http.result (http.Do st n req)
       = http.DoResp 429 header (http.ReadOK respBody)) ->
  1 <= maxRetries c ->
  count_sends (snd (request st c method endpoint body params))
    = Z.to_nat (maxRetries c) /\
  exists req header respBody,
    last (snd (request st c method endpoint body params))
      = Some (Send (maxRetries c - 1) req
                (http.DoResp 429 header (http.ReadOK respBody))) /\
    fst (request st c method endpoint body params)
      = inr (NewRateLimitError (retryAfterOf header)).
Proof.
  intros Hm Hu Hbody Hall Hmax.
  destruct (request_cases st c method endpoint body params)
    as [(d & Hd & _) | (rd & E)].
  { exfalso. exact (Hbody d Hd). }
  rewrite E.
  destruct (Z.to_nat (maxRetries c)) as [|k] eqn:Ek; [lia |].
  destruct (all_rate_limited_loop st c method endpoint _ Hm Hu Hall
              k 0 rd None ltac:(lia))
    as (Hcount & req & header & respBody & _ & Hend & Hfst).
  split; [exact Hcount |].
  exists req, header, respBody. split; assumption.
Qed.

(** * Further properties of the Go client *)

(** ** One iteration, all branches at once *)

Lemma count_sends_app evs1 evs2 :
  count_sends (evs1 ++ evs2) = (count_sends evs1 + count_sends evs2)%nat.
Proof. unfold count_sends. rewrite filter_app, length_app. reflexivity. Qed.

Lemma send_attempts_app evs1 evs2 :
  send_attempts (evs1 ++ evs2) = send_attempts evs1 ++ send_attempts evs2.
Proof.
  induction evs1 as [|[n req res | d] evs1 IH]; cbn [app send_attempts];
    [reflexivity | rewrite IH; reflexivity | exact IH].
Qed.

Section Step.

Variables (st : http.Stack) (c : Client) (method endpoint u : string).

Local Abbreviation loop := (attempts st c method endpoint u).
Local Abbreviation create :=
  (http.NewRequestWithContext (http.parse_err st) method u).

(** An iteration that sends its request either returns what [classify]
    makes of the exchange, or sleeps after a 429 and goes on with the
    recorded error unchanged, or records the error [classify] makes of the
    exchange and goes on, after a back-off sleep when the transport
    failed and at once otherwise. *)
Lemma loop_step k n rd le req0 :
  create rd = inl req0 ->
  let rt := exchange st c n req0 in
  let sent := Send n (withHeaders c req0) (http.result rt) in
  let rd' := bytes.advance (http.consumed rt) <$> rd in
  loop (S k) n rd le = (classify endpoint (http.result rt), [sent])
  \/
  (exists header respBody,
     http.result rt = http.DoResp 429 header (http.ReadOK respBody) /\
     n < maxRetries c - 1 /\
     loop (S k) n rd le =
       emit [sent; Sleep (Int64.mul (retryAfterOf header) time.Second)]
         (loop k (n + 1) rd' le))
  \/
  (exists e sl,
     classify endpoint (http.result rt) = inr e /\
     (sl = [] \/
      exists d, http.result rt = http.DoErr d /\
                sl = [Sleep (Int64.mul (Int64.shl 1 n) time.Second)]) /\
     loop (S k) n rd le = emit (sent :: sl) (loop k (n + 1) rd' (Some e))).
Proof.
  intros Hc. cbv zeta.
  destruct (http.result (exchange st c n req0))
    as [d | status header [respBody | d]] eqn:Hres.
  - right. right. eexists _, _. split; [reflexivity |].
    split; [right; exists d; split; reflexivity |].
    erewrite loop_transport_failure by eassumption.
    rewrite Hres. reflexivity.
  - destruct (decide (200 <= status < 300)) as [H2 | H2].
    { left. erewrite loop_success by eassumption. rewrite Hres.
      unfold classify.
      replace ((200 <=? status) && (status <? 300)) with true; [reflexivity |].
      symmetry. apply andb_true_intro.
      split; [apply Z.leb_le | apply Z.ltb_lt]; lia. }
    assert (Hno2 : (200 <=? status) && (status <? 300) = false).
    { destruct (200 <=? status) eqn:E1; [| reflexivity].
      destruct (status <? 300) eqn:E2; [| reflexivity].
      apply Z.leb_le in E1. apply Z.ltb_lt in E2. lia. }
    destruct (decide (status = 401 \/ status = 404 \/ status = 422))
      as [Ht | Ht].
    { left. erewrite loop_terminal by eassumption. rewrite Hres.
      unfold classify, terminal_error. rewrite Hno2.
      destruct Ht as [-> | [-> | ->]]; reflexivity. }
    assert (H401 : (status =? 401) = false) by (apply Z.eqb_neq; tauto).
    assert (H404 : (status =? 404) = false) by (apply Z.eqb_neq; tauto).
    assert (H422 : (status =? 422) = false) by (apply Z.eqb_neq; tauto).
    destruct (decide (status = 429)) as [-> | H429].
    { destruct (decide (n < maxRetries c - 1)) as [Hn | Hn].
      - right. left. exists header, respBody.
        split; [reflexivity |]. split; [exact Hn |].
        erewrite loop_rate_limited_retry by eassumption.
        rewrite Hres. reflexivity.
      - left. erewrite loop_rate_limited_last by (eassumption || lia).
        rewrite Hres. reflexivity. }
    right. right. exists (APIError status respBody), [].
    split.
    { unfold classify. rewrite Hno2, H401, H404, H422.
      apply Z.eqb_neq in H429. rewrite H429. reflexivity. }
    split; [left; reflexivity |].
    erewrite loop_other; [rewrite Hres; reflexivity | eassumption..|].
    apply other_status_intro; tauto.
  - right. right. eexists _, []. split; [reflexivity |].
    split; [left; reflexivity |].
    erewrite loop_read_failure by eassumption. rewrite Hres. reflexivity.
Qed.

(** A run of the loop without a single send has no iteration left or
    cannot create its request. *)
Lemma loop_without_send k n rd le req0 :
  create rd = inl req0 ->
  count_sends (snd (loop k n rd le)) = O -> k = O.
Proof.
  intros Hc H. destruct k as [|k]; [reflexivity |].
  destruct (loop_starts_with_send st c method endpoint u k n rd le req0 Hc)
    as (r & req & res & post & E).
  rewrite E in H. cbn [snd] in H. rewrite count_sends_send in H. discriminate.
Qed.

(** The sends of a run are numbered from the attempt it starts at,
    one by one, and there are no more of them than iterations. *)
Lemma loop_attempt_numbers k : forall n rd le,
  send_attempts (snd (loop k n rd le))
    = map (fun i : nat => n + Z.of_nat i)
        (seq 0 (count_sends (snd (loop k n rd le)))) /\
  (count_sends (snd (loop k n rd le)) <= k)%nat.
Proof.
  induction k as [|k IH]; intros n rd le.
  { rewrite loop_O. destruct le; split; cbn; (reflexivity || lia). }
  destruct (loop_shape st c method endpoint u k n rd le)
    as [(err & _ & E) | (req0 & Hc & [(r & E) | (sl & le' & Hsl & E)])];
    rewrite E.
  - split; cbn; (reflexivity || lia).
  - cbn [snd]. rewrite count_sends_send. cbn.
    split; [rewrite Z.add_0_r; reflexivity | lia].
  - rewrite snd_emit. cbn [app].
    rewrite count_sends_send. cbn [send_attempts].
    rewrite count_sends_app, send_attempts_app.
    assert (Hquiet : count_sends sl = O /\ send_attempts sl = []).
    { destruct Hsl as [-> | (d & ->)]; split; reflexivity. }
    destruct Hquiet as (-> & ->). cbn [app Nat.add].
    destruct (IH (n + 1)
                (bytes.advance (http.consumed (exchange st c n req0)) <$> rd)
                le') as (Hnum & Hle).
    split; [| lia].
    rewrite Hnum. cbn [seq map]. rewrite Z.add_0_r. f_equal.
    rewrite <- seq_shift, map_map. apply map_ext. intros i. lia.
Qed.

End Step.

(** ** The attempt budget *)

(** X1. A call never sends more requests than the retry count of the
    client, and its sends are numbered 0, 1, 2, ... in the order they are
    made. *)
Theorem attempts_within_budget (st : http.Stack) (c : Client)
    (method endpoint : string) (body : option Payload) (params : url.Values) :
  (count_sends (snd (request st c method endpoint body params))
     <= Z.to_nat (maxRetries c))%nat /\
  send_attempts (snd (request st c method endpoint body params))
    = map Z.of_nat
        (seq 0 (count_sends (snd (request st c method endpoint body params)))).
Proof.
  destruct (request_cases st c method endpoint body params)
    as [(d & _ & E) | (rd & E)]; rewrite E.
  - split; cbn; (reflexivity || lia).
  - destruct (loop_attempt_numbers st c method endpoint
                (fullURL c endpoint params) (Z.to_nat (maxRetries c)) 0 rd None)
      as (Hnum & Hle).
    split; [exact Hle |]. rewrite Hnum. apply map_ext. intros i. lia.
Qed.

(** ** The last exchange decides *)

Lemma last_send_split (evs : list Event) :
  (0 < count_sends evs)%nat ->
  exists pre m req res post,
    evs = pre ++ Send m req res :: post /\ count_sends post = O.
Proof.
  induction evs as [|ev evs IH]; intros H; [cbn in H; lia |].
  destruct (count_sends evs) as [|cnt] eqn:E.
  - destruct ev as [m req res | d].
    + exists [], m, req, res, evs. split; [reflexivity | exact E].
    + rewrite count_sends_sleep in H. lia.
  - destruct (IH ltac:(lia)) as (pre & m & req & res & post & -> & Hpost).
    exists (ev :: pre), m, req, res, post. split; [reflexivity | exact Hpost].
Qed.

(** When no send follows a send, the call returns what [classify] makes
    of that exchange: errors recorded by earlier attempts do not come
    back. *)
Lemma last_send_decides st c method endpoint body params pre post m req res :
  snd (request st c method endpoint body params)
    = pre ++ Send m req res :: post ->
  count_sends post = O ->
  fst (request st c method endpoint body params) = classify endpoint res.
Proof.
  intros H Hquiet.
  destruct (request_suffix _ _ _ _ _ _ _ _ _ _ _ H)
    as (k' & rd' & le' & Hk & _ & E).
  pose proof (f_equal snd E) as Hsnd. cbn [snd] in Hsnd.
  destruct (loop_first_send _ _ _ _ _ _ _ _ _ _ _ _ _ Hsnd)
    as (req0 & Hc & _ & -> & ->).
  destruct (create_again st method (fullURL c endpoint params) rd'
              (bytes.advance (http.consumed (exchange st c m req0)) <$> rd')
              req0 Hc) as (req1 & Hc1).
  destruct (loop_step st c method endpoint _ k' m rd' le' req0 Hc)
    as [Estop | [(header & respBody & _ & Hm & Ego) | (e & sl & He & _ & Ego)]].
  - rewrite Estop in E. apply (f_equal fst) in E. cbn [fst] in E.
    symmetry. exact E.
  - exfalso. rewrite Ego in E.
    pose proof (f_equal snd E) as Hp. rewrite snd_emit in Hp. cbn [snd] in Hp.
    cbn [app] in Hp. apply (f_equal (@tl Event)) in Hp. cbn [tl] in Hp.
    rewrite <- Hp in Hquiet. rewrite count_sends_sleep in Hquiet.
    pose proof (loop_without_send st c method endpoint _ k' (m + 1) _ le'
                  req1 Hc1 Hquiet).
    lia.
  - rewrite Ego in E.
    pose proof (f_equal fst E) as Hf. rewrite fst_emit in Hf. cbn [fst] in Hf.
    pose proof (f_equal snd E) as Hp. rewrite snd_emit in Hp. cbn [snd] in Hp.
    cbn [app] in Hp. apply (f_equal (@tl Event)) in Hp. cbn [tl] in Hp.
    rewrite <- Hp in Hquiet. rewrite count_sends_app in Hquiet.
    assert (Hrest : count_sends
                      (snd (attempts st c method endpoint
                              (fullURL c endpoint params) k' (m + 1)
                              (bytes.advance
                                 (http.consumed (exchange st c m req0)) <$> rd')
                              (Some e))) = O) by lia.
    pose proof (loop_without_send st c method endpoint _ k' (m + 1) _ (Some e)
                  req1 Hc1 Hrest) as ->.
    rewrite loop_O in Hf. rewrite He. symmetry. exact Hf.
Qed.

(** A call that sends nothing returns an error. *)
Lemma request_without_send_fails st c method endpoint body params :
  count_sends (snd (request st c method endpoint body params)) = O ->
  exists e, fst (request st c method endpoint body params) = inr e.
Proof.
  intros H.
  destruct (request_cases st c method endpoint body params)
    as [(d & _ & E) | (rd & E)]; rewrite E in H |- *.
  { eexists. reflexivity. }
  destruct (Z.to_nat (maxRetries c)) as [|k].
  { rewrite loop_O. eexists. reflexivity. }
  destruct (loop_shape st c method endpoint (fullURL c endpoint params)
              k 0 rd None)
    as [(err & _ & E') | (req0 & Hc & _)].
  - rewrite E'. eexists. reflexivity.
  - destruct (loop_starts_with_send st c method endpoint _ k 0 rd None req0 Hc)
      as (r & req & res & post & E').
    rewrite E' in H. cbn [snd] in H. rewrite count_sends_send in H.
    discriminate.
Qed.

(** Nothing follows a send that got a status from 200 to 299 and whose
    response body was read. *)
Lemma success_is_last st c method endpoint body params pre post m req
    status header respBody :
  snd (request st c method endpoint body params)
    = pre ++
      Send m req (http.DoResp status header (http.ReadOK respBody)) :: post ->
  200 <= status < 300 ->
  post = [].
Proof.
  intros H Hs.
  destruct (request_suffix _ _ _ _ _ _ _ _ _ _ _ H)
    as (k' & rd' & le' & _ & _ & E).
  pose proof (f_equal snd E) as Hsnd. cbn [snd] in Hsnd.
  destruct (loop_first_send _ _ _ _ _ _ _ _ _ _ _ _ _ Hsnd)
    as (req0 & Hc & _ & _ & Hres).
  rewrite (loop_success _ _ _ _ _ _ _ _ _ _ Hc _ _ _ (eq_sym Hres) Hs) in E.
  pose proof (f_equal snd E) as Hp. cbn [snd] in Hp.
  inversion Hp; reflexivity.
Qed.

(** X2. A response with a status from 200 to 299 whose body was read ends
    the call: nothing follows it in the trace and the call returns that
    body, whatever errors earlier attempts recorded. *)
Theorem success_ends_the_call (st : http.Stack) (c : Client)
    (method endpoint : string) (body : option Payload) (params : url.Values)
    (pre post : list Event) (m : Z) (req : http.Request)
    (status : Z) (header : http.Header) (respBody : string) :
  snd (request st c method endpoint body params)
    = pre ++
      Send m req (http.DoResp status header (http.ReadOK respBody)) :: post ->
  200 <= status < 300 ->
  post = [] /\
  fst (request st c method endpoint body params) = inl respBody.
Proof.
  intros H Hs.
  destruct (request_suffix _ _ _ _ _ _ _ _ _ _ _ H)
    as (k' & rd' & le' & _ & _ & E).
  pose proof (f_equal snd E) as Hsnd. cbn [snd] in Hsnd.
  destruct (loop_first_send _ _ _ _ _ _ _ _ _ _ _ _ _ Hsnd)
    as (req0 & Hc & _ & _ & Hres).
  rewrite (loop_success _ _ _ _ _ _ _ _ _ _ Hc _ _ _ (eq_sym Hres) Hs) in E.
  pose proof (f_equal fst E) as Hf. cbn [fst] in Hf.
  pose proof (f_equal snd E) as Hp. cbn [snd] in Hp.
  split; [inversion Hp; reflexivity | symmetry; exact Hf].
Qed.

Lemma success_ends_the_call_witness :
  snd (Get (scripted [http.DoErr "connection reset"]
              (http.DoResp 204 ∅ (http.ReadOK "")))
         sample_client "/health" ∅)
    = [Send 0 (sample_request "GET" "/health" "")
         (http.DoErr "connection reset");
       Sleep 1000000000]
      ++ Send 1 (sample_request "GET" "/health" "")
           (http.DoResp 204 ∅ (http.ReadOK "")) :: [] /\
  fst (Get (scripted [http.DoErr "connection reset"]
              (http.DoResp 204 ∅ (http.ReadOK "")))
         sample_client "/health" ∅) = inl "".
Proof.
  assert (H : snd (Get (scripted [http.DoErr "connection reset"]
                          (http.DoResp 204 ∅ (http.ReadOK "")))
                     sample_client "/health" ∅)
    = [Send 0 (sample_request "GET" "/health" "")
         (http.DoErr "connection reset");
       Sleep 1000000000]
      ++ Send 1 (sample_request "GET" "/health" "")
           (http.DoResp 204 ∅ (http.ReadOK "")) :: [])
    by (vm_compute; reflexivity).
  split; [exact H |].
  apply (success_ends_the_call _ _ _ _ _ _ _ _ _ _ _ _ _ H). lia.
Defined.

(** X3. A call returns a body only from a response with a status from
    200 to 299 whose body was read: the trace then ends with the send that
    got that response, and the body returned is the body of that
    response. *)
Theorem success_only_from_2xx (st : http.Stack) (c : Client)
    (method endpoint : string) (body : option Payload) (params : url.Values)
    (respBody : string) :
  fst (request st c method endpoint body params) = inl respBody ->
  exists pre m req status header,
    snd (request st c method endpoint body params)
      = pre ++
        [Send m req (http.DoResp status header (http.ReadOK respBody))] /\
    200 <= status < 300.
Proof.
  intros Hok.
  destruct (count_sends (snd (request st c method endpoint body params)))
    as [|cnt] eqn:Hcnt.
  { destruct (request_without_send_fails _ _ _ _ _ _ Hcnt) as (e & He).
    congruence. }
  destruct (last_send_split
              (snd (request st c method endpoint body params))
              ltac:(lia))
    as (pre & m & req & res & post & H & Hquiet).
  pose proof (last_send_decides _ _ _ _ _ _ _ _ _ _ _ H Hquiet) as Hcl.
  rewrite Hok in Hcl.
  destruct res as [d | status header [b | d]]; cbn in Hcl; try discriminate.
  destruct ((200 <=? status) && (status <? 300)) eqn:H2.
  2: { repeat match type of Hcl with
              | _ = (if ?b then _ else _) => destruct b
              end; discriminate. }
  inversion Hcl; subst b.
  apply andb_prop in H2 as [Ha Hb].
  apply Z.leb_le in Ha. apply Z.ltb_lt in Hb.
  pose proof (success_is_last st c method endpoint body params
                pre post m req status header respBody H (conj Ha Hb)) as ->.
  exists pre, m, req, status, header. split; [exact H | lia].
Qed.

Lemma success_only_from_2xx_witness :
  fst (Get (always (http.DoResp 200 ∅ (http.ReadOK "{}")))
         sample_client "/health" ∅) = inl "{}" /\
  exists pre m req status header,
    snd (Get (always (http.DoResp 200 ∅ (http.ReadOK "{}")))
           sample_client "/health" ∅)
      = pre ++ [Send m req (http.DoResp status header (http.ReadOK "{}"))] /\
    200 <= status < 300.
Proof.
  assert (H : fst (Get (always (http.DoResp 200 ∅ (http.ReadOK "{}")))
                     sample_client "/health" ∅) = inl "{}")
    by (vm_compute; reflexivity).
  split; [exact H |].
  exact (success_only_from_2xx _ _ _ _ _ _ _ H).
Defined.

(** X4. A call on which at least one request was sent returns what the
    last exchange alone determines: the body of a 2xx response, the typed
    error of its status, or the Connection error of a failed send or a
    failed read. What earlier attempts recorded is not returned. *)
Theorem result_is_of_last_attempt (st : http.Stack) (c : Client)
    (method endpoint : string) (body : option Payload) (params : url.Values) :
  (0 < count_sends (snd (request st c method endpoint body params)))%nat ->
  exists pre m req res post,
    snd (request st c method endpoint body params)
      = pre ++ Send m req res :: post /\
    count_sends post = O /\
    fst (request st c method endpoint body params) = classify endpoint res.
Proof.
  intros H.
  destruct (last_send_split _ H)
    as (pre & m & req & res & post & Hsplit & Hquiet).
  exists pre, m, req, res, post.
  split; [exact Hsplit |]. split; [exact Hquiet |].
  exact (last_send_decides _ _ _ _ _ _ _ _ _ _ _ Hsplit Hquiet).
Qed.

Lemma result_is_of_last_attempt_witness :
  (0 < count_sends
         (snd (Get (scripted [http.DoResp 500 ∅ (http.ReadOK "boom");
                              http.DoErr "connection reset"]
                      (http.DoResp 404 ∅ (http.ReadOK "gone")))
                 sample_client "/agents/a1" ∅)))%nat /\
  exists pre m req res post,
    snd (Get (scripted [http.DoResp 500 ∅ (http.ReadOK "boom");
                        http.DoErr "connection reset"]
                (http.DoResp 404 ∅ (http.ReadOK "gone")))
           sample_client "/agents/a1" ∅)
      = pre ++ Send m req res :: post /\
    count_sends post = O /\
    fst (Get (scripted [http.DoResp 500 ∅ (http.ReadOK "boom");
                        http.DoErr "connection reset"]
                (http.DoResp 404 ∅ (http.ReadOK "gone")))
           sample_client "/agents/a1" ∅)
      = classify "/agents/a1" res.
Proof.
  assert (H : (0 < count_sends
         (snd (Get (scripted [http.DoResp 500 ∅ (http.ReadOK "boom");
                              http.DoErr "connection reset"]
                      (http.DoResp 404 ∅ (http.ReadOK "gone")))
                 sample_client "/agents/a1" ∅)))%nat)
    by (vm_compute; lia).
  split; [exact H |].
  exact (result_is_of_last_attempt _ _ _ _ _ _ H).
Defined.

(** X5. When a call returns an error after a response whose body was read
    came back on its last send, the status code carried by the error is the
    status of that response. *)
Theorem error_status_is_last_status (st : http.Stack) (c : Client)
    (method endpoint : string) (body : option Payload) (params : url.Values)
    (pre post : list Event) (m : Z) (req : http.Request)
    (status : Z) (header : http.Header) (respBody : string) (e : error) :
  snd (request st c method endpoint body params)
    = pre ++
      Send m req (http.DoResp status header (http.ReadOK respBody)) :: post ->
  count_sends post = O ->
  fst (request st c method endpoint body params) = inr e ->
  StatusCode (embedded e) = status.
Proof.
  intros H Hquiet He.
  pose proof (last_send_decides _ _ _ _ _ _ _ _ _ _ _ H Hquiet) as Hcl.
  rewrite He in Hcl. cbn [classify] in Hcl.
  destruct ((200 <=? status) && (status <? 300)); [discriminate |].
  destruct (Z.eqb_spec status 401) as [-> | _];
    [inversion Hcl; reflexivity |].
  destruct (Z.eqb_spec status 404) as [-> | _];
    [inversion Hcl; reflexivity |].
  destruct (Z.eqb_spec status 422) as [-> | _];
    [inversion Hcl; reflexivity |].
  destruct (Z.eqb_spec status 429) as [-> | _];
    inversion Hcl; reflexivity.
Qed.

Lemma error_status_is_last_status_witness :
  snd (Get (always (http.DoResp 503 ∅ (http.ReadOK "down")))
         (with_maxRetries 1 sample_client) "/health" ∅)
    = [] ++ Send 0 (sample_request "GET" "/health" "")
              (http.DoResp 503 ∅ (http.ReadOK "down")) :: [] /\
  fst (Get (always (http.DoResp 503 ∅ (http.ReadOK "down")))
         (with_maxRetries 1 sample_client) "/health" ∅)
    = inr (APIError 503 "down") /\
  StatusCode (embedded (APIError 503 "down")) = 503.
Proof.
  assert (H : snd (Get (always (http.DoResp 503 ∅ (http.ReadOK "down")))
                     (with_maxRetries 1 sample_client) "/health" ∅)
    = [] ++ Send 0 (sample_request "GET" "/health" "")
              (http.DoResp 503 ∅ (http.ReadOK "down")) :: [])
    by (vm_compute; reflexivity).
  assert (He : fst (Get (always (http.DoResp 503 ∅ (http.ReadOK "down")))
                      (with_maxRetries 1 sample_client) "/health" ∅)
    = inr (APIError 503 "down")) by (vm_compute; reflexivity).
  split; [exact H |]. split; [exact He |].
  exact (error_status_is_last_status _ _ _ _ _ _ _ _ _ _ _ _ _ _
           H eq_refl He).
Defined.

(** X6. A response whose body cannot be read is not classified by its
    status, whatever the status is: on the last attempt of the budget the
    call returns the Connection error "failed to read response", on an
    earlier attempt the next attempt follows at once, with no sleep. *)
Theorem read_failure_retried_at_once (st : http.Stack) (c : Client)
    (method endpoint : string) (body : option Payload) (params : url.Values)
    (pre post : list Event) (m : Z) (req : http.Request)
    (status : Z) (header : http.Header) (d : string) :
  snd (request st c method endpoint body params)
    = pre ++ Send m req (http.DoResp status header (http.ReadErr d)) :: post ->
  (m = maxRetries c - 1 /\ post = [] /\
   fst (request st c method endpoint body params)
     = inr (NewConnectionError "failed to read response" (ReadFailure d)))
  \/
  (m < maxRetries c - 1 /\
   exists req' res' post', post = Send (m + 1) req' res' :: post').
Proof.
  intros H.
  destruct (request_suffix _ _ _ _ _ _ _ _ _ _ _ H)
    as (k' & rd' & le' & Hk & _ & E).
  pose proof (f_equal snd E) as Hsnd. cbn [snd] in Hsnd.
  destruct (loop_first_send _ _ _ _ _ _ _ _ _ _ _ _ _ Hsnd)
    as (req0 & Hc & _ & _ & Hres).
  rewrite (loop_read_failure _ _ _ _ _ _ _ _ _ _ Hc _ _ _ (eq_sym Hres)) in E.
  pose proof (f_equal fst E) as Hf. rewrite fst_emit in Hf. cbn [fst] in Hf.
  pose proof (f_equal snd E) as Hp. rewrite snd_emit in Hp. cbn [snd] in Hp.
  cbn [app] in Hp. apply (f_equal (@tl Event)) in Hp. cbn [tl] in Hp.
  rewrite <- Hp.
  destruct k' as [|k''].
  - left. rewrite loop_O in Hf |- *.
    split; [lia |]. split; [reflexivity |]. symmetry. exact Hf.
  - right. split; [lia |].
    destruct (create_again st method (fullURL c endpoint params) rd'
                (bytes.advance (http.consumed (exchange st c m req0)) <$> rd')
                req0 Hc) as (req1 & Hc1).
    destruct (loop_starts_with_send st c method endpoint _ k'' (m + 1) _
                (Some (NewConnectionError "failed to read response"
                         (ReadFailure d))) req1 Hc1)
      as (r & req' & res' & post' & E').
    exists req', res', post'. rewrite E'. reflexivity.
Qed.

Lemma read_failure_retried_at_once_witness :
  snd (Get (scripted [http.DoResp 401 ∅ (http.ReadErr "unexpected EOF")]
              (http.DoResp 200 ∅ (http.ReadOK "ok")))
         sample_client "/health" ∅)
    = [] ++
      Send 0 (sample_request "GET" "/health" "")
        (http.DoResp 401 ∅ (http.ReadErr "unexpected EOF"))
      :: [Send 1 (sample_request "GET" "/health" "")
            (http.DoResp 200 ∅ (http.ReadOK "ok"))] /\
  0 < maxRetries sample_client - 1 /\
  exists req' res' post',
    [Send 1 (sample_request "GET" "/health" "")
       (http.DoResp 200 ∅ (http.ReadOK "ok"))]
    = Send (0 + 1) req' res' :: post'.
Proof.
  assert (H : snd (Get (scripted
                          [http.DoResp 401 ∅ (http.ReadErr "unexpected EOF")]
                          (http.DoResp 200 ∅ (http.ReadOK "ok")))
                     sample_client "/health" ∅)
    = [] ++
      Send 0 (sample_request "GET" "/health" "")
        (http.DoResp 401 ∅ (http.ReadErr "unexpected EOF"))
      :: [Send 1 (sample_request "GET" "/health" "")
            (http.DoResp 200 ∅ (http.ReadOK "ok"))])
    by (vm_compute; reflexivity).
  split; [exact H |].
  destruct (read_failure_retried_at_once _ _ _ _ _ _ _ _ _ _ _ _ _ H)
    as [(Hm & _) | Hnext].
  - vm_compute in Hm. discriminate.
  - exact Hnext.
Defined.

(** ** Requests that cannot be created *)

(** X7. With a budget of at least one attempt and a body that can be
    marshalled, a call whose method is not a valid HTTP method, or whose URL
    does not parse, sends nothing, sleeps never and is not retried: it
    returns the Connection error "failed to create request" at once. *)
Theorem uncreatable_request_not_sent (st : http.Stack) (c : Client)
    (method endpoint : string) (body : option Payload) (params : url.Values) :
  (forall d, body <> Some (Unsupported d)) ->
  1 <= maxRetries c ->
  (http.validMethod (if String.eqb method "" then "GET" else method) = false ->
   request st c method endpoint body params
   = (inr (NewConnectionError "failed to create request"
             (InvalidMethod (if String.eqb method "" then "GET" else method))),
      [])) /\
  (http.validMethod (if String.eqb method "" then "GET" else method) = true ->
   forall e, http.parse_err st (fullURL c endpoint params) = Some e ->
   request st c method endpoint body params
   = (inr (NewConnectionError "failed to create request" (URLParseFailure e)),
      [])).
Proof.
  intros Hbody Hmax.
  destruct (request_cases st c method endpoint body params)
    as [(d & Hd & _) | (rd & E)].
  { exfalso. exact (Hbody d Hd). }
  rewrite E.
  destruct (Z.to_nat (maxRetries c)) as [|k] eqn:Ek; [lia |].
  split.
  - intros Hm. apply loop_create_fails.
    unfold http.NewRequestWithContext. rewrite Hm. reflexivity.
  - intros Hm e He. apply loop_create_fails.
    unfold http.NewRequestWithContext. rewrite Hm, He. reflexivity.
Qed.

Lemma uncreatable_request_not_sent_witness :
  request (always (http.DoResp 200 ∅ (http.ReadOK "ok"))) sample_client
    "GET /" "/health" None ∅
  = (inr (NewConnectionError "failed to create request"
            (InvalidMethod "GET /")), []).
Proof.
  apply (uncreatable_request_not_sent
           (always (http.DoResp 200 ∅ (http.ReadOK "ok"))) sample_client
           "GET /" "/health" None ∅).
  - intros d H. discriminate.
  - vm_compute. discriminate.
  - vm_compute. reflexivity.
Defined.

(** ** Where the sleeps are *)

Lemma loop_sleep_origin st c method endpoint u k : forall n rd le pre d post,
  snd (attempts st c method endpoint u k n rd le) = pre ++ Sleep d :: post ->
  exists pre' m req res,
    pre = pre' ++ [Send m req res] /\
    ((exists detail,
        res = http.DoErr detail /\
        d = Int64.mul (Int64.shl 1 m) time.Second)
     \/
     (exists header respBody,
        res = http.DoResp 429 header (http.ReadOK respBody) /\
        m < maxRetries c - 1 /\
        d = Int64.mul (retryAfterOf header) time.Second)).
Proof.
  induction k as [|k IH]; intros n rd le pre d post H.
  { rewrite loop_O in H. destruct le; cbn [snd] in H;
      destruct pre; discriminate. }
  destruct (http.NewRequestWithContext (http.parse_err st) method u rd)
    as [req0 | err] eqn:Hc.
  2: { rewrite (loop_create_fails st c method endpoint u k n rd le err Hc) in H.
       destruct pre; discriminate. }
  destruct (loop_step st c method endpoint u k n rd le req0 Hc)
    as [E | [(header & respBody & Hres & Hn & E) | (e & sl & _ & Hsl & E)]];
    rewrite E in H; clear E.
  - cbn [snd] in H. destruct pre as [|ev [|ev' pre]]; discriminate.
  - rewrite snd_emit in H. cbn [app] in H.
    destruct pre as [|ev [|ev' pre]]; cbn [app] in H.
    + discriminate.
    + inversion H as [[Hev Hd Hpost]].
      exists [], n, (withHeaders c req0), (http.result (exchange st c n req0)).
      split; [reflexivity |]. right. exists header, respBody.
      repeat split; assumption || reflexivity.
    + inversion H as [[Hev Hev' Hrest]].
      destruct (IH _ _ _ _ _ _ Hrest) as (pre' & m & req & res & -> & Hor).
      exists (Send n (withHeaders c req0) (http.result (exchange st c n req0))
              :: Sleep (Int64.mul (retryAfterOf header) time.Second) :: pre'),
        m, req, res.
      split; [reflexivity | exact Hor].
  - rewrite snd_emit in H.
    destruct Hsl as [-> | (detail & Hres & ->)]; cbn [app] in H.
    + destruct pre as [|ev pre]; cbn [app] in H; [discriminate |].
      inversion H as [[Hev Hrest]].
      destruct (IH _ _ _ _ _ _ Hrest) as (pre' & m & req & res & -> & Hor).
      exists (Send n (withHeaders c req0) (http.result (exchange st c n req0))
              :: pre'), m, req, res.
      split; [reflexivity | exact Hor].
    + destruct pre as [|ev [|ev' pre]]; cbn [app] in H.
      * discriminate.
      * inversion H as [[Hev Hd Hpost]].
        exists [], n, (withHeaders c req0),
          (http.result (exchange st c n req0)).
        split; [reflexivity |]. left. exists detail.
        split; [exact Hres | reflexivity].
      * inversion H as [[Hev Hev' Hrest]].
        destruct (IH _ _ _ _ _ _ Hrest) as (pre' & m & req & res & -> & Hor).
        exists (Send n (withHeaders c req0)
                  (http.result (exchange st c n req0))
                :: Sleep (Int64.mul (Int64.shl 1 n) time.Second) :: pre'),
          m, req, res.
        split; [reflexivity | exact Hor].
Qed.

(** X8. A call sleeps only right after a send, and only in two cases:
    after a send that failed in the transport, for [1<<attempt] seconds, and
    after a 429 on an attempt before the last of the budget, for the
    [Retry-After] value in seconds (both in 64-bit arithmetic). It never
    sleeps before the first send, after a read failure or after any other
    status. *)
Theorem sleeps_only_after_failure_or_429 (st : http.Stack) (c : Client)
    (method endpoint : string) (body : option Payload) (params : url.Values)
    (pre post : list Event) (d : time.Duration) :
  snd (request st c method endpoint body params) = pre ++ Sleep d :: post ->
  exists pre' m req res,
    pre = pre' ++ [Send m req res] /\
    ((exists detail,
        res = http.DoErr detail /\
        d = Int64.mul (Int64.shl 1 m) time.Second)
     \/
     (exists header respBody,
        res = http.DoResp 429 header (http.ReadOK respBody) /\
        m < maxRetries c - 1 /\
        d = Int64.mul (retryAfterOf header) time.Second)).
Proof.
  intros H.
  destruct (request_cases st c method endpoint body params)
    as [(detail & _ & E) | (rd & E)]; rewrite E in H.
  - destruct pre; discriminate.
  - exact (loop_sleep_origin _ _ _ _ _ _ _ _ _ _ _ _ H).
Qed.

Lemma sleeps_only_after_failure_or_429_witness :
  snd (Get (scripted [http.DoResp 429 (retry_after "7") (http.ReadOK "")]
              (http.DoResp 200 ∅ (http.ReadOK "ok")))
         sample_client "/tasks" ∅)
    = [Send 0 (sample_request "GET" "/tasks" "")
         (http.DoResp 429 (retry_after "7") (http.ReadOK ""))]
      ++ Sleep 7000000000
      :: [Send 1 (sample_request "GET" "/tasks" "")
            (http.DoResp 200 ∅ (http.ReadOK "ok"))] /\
  exists pre' m req res,
    [Send 0 (sample_request "GET" "/tasks" "")
       (http.DoResp 429 (retry_after "7") (http.ReadOK ""))]
    = pre' ++ [Send m req res] /\
    ((exists detail,
        res = http.DoErr detail /\
        7000000000 = Int64.mul (Int64.shl 1 m) time.Second)
     \/
     (exists header respBody,
        res = http.DoResp 429 header (http.ReadOK respBody) /\
        m < maxRetries sample_client - 1 /\
        7000000000 = Int64.mul (retryAfterOf header) time.Second)).
Proof.
  assert (H : snd (Get (scripted
                          [http.DoResp 429 (retry_after "7") (http.ReadOK "")]
                          (http.DoResp 200 ∅ (http.ReadOK "ok")))
                     sample_client "/tasks" ∅)
    = [Send 0 (sample_request "GET" "/tasks" "")
         (http.DoResp 429 (retry_after "7") (http.ReadOK ""))]
      ++ Sleep 7000000000
      :: [Send 1 (sample_request "GET" "/tasks" "")
            (http.DoResp 200 ∅ (http.ReadOK "ok"))])
    by (vm_compute; reflexivity).
  split; [exact H |].
  exact (sleeps_only_after_failure_or_429 _ _ _ _ _ _ _ _ _ H).
Defined.

(** ** Terminal statuses *)

Lemma terminal_after_retries_loop st c method endpoint u
    (k : nat) (status : Z) (header : http.Header) (respBody : string) :
  http.validMethod (if String.eqb method "" then "GET" else method) = true ->
  http.parse_err st u = None ->
  (forall i req, 0 <= i < Z.of_nat k ->
     match http.result (http.Do st i req) with
     | http.DoResp s _ (http.ReadOK _) =>
         ~ 200 <= s < 300 /\ s <> 401 /\ s <> 404 /\ s <> 422
     | _ => True
     end) ->
  (forall req,
     http.result (http.Do st (Z.of_nat k) req)
       = http.DoResp status header (http.ReadOK respBody)) ->
  status = 401 \/ status = 404 \/ status = 422 ->
  Z.of_nat k < maxRetries c ->
  forall j i fuel rd le,
    (i + j = k)%nat -> (j < fuel)%nat ->
    count_sends (snd (attempts st c method endpoint u fuel (Z.of_nat i) rd le))
      = S j /\
    (exists req,
       last (snd (attempts st c method endpoint u fuel (Z.of_nat i) rd le))
         = Some (Send (Z.of_nat k) req
                   (http.DoResp status header (http.ReadOK respBody)))) /\
    fst (attempts st c method endpoint u fuel (Z.of_nat i) rd le)
      = inr (terminal_error endpoint status respBody).
Proof.
  intros Hm Hu Hearly Hterm Hs Hk.
  induction j as [|j IH]; intros i fuel rd le Hij Hfuel;
    (destruct fuel as [|fuel]; [lia |]);
    destruct (create_succeeds (http.parse_err st) method u rd Hm Hu)
      as (req0 & Hc).
  - replace i with k by lia.
    rewrite (loop_terminal st c method endpoint u fuel (Z.of_nat k) rd le req0
               Hc status header respBody (Hterm _) Hs).
    cbn [fst snd]. unfold exchange. rewrite Hterm.
    split; [reflexivity |]. split; [| reflexivity].
    eexists. reflexivity.
  - pose proof (Hearly (Z.of_nat i) (withHeaders c req0) ltac:(lia)) as He.
    fold (exchange st c (Z.of_nat i) req0) in He.
    destruct (http.result (exchange st c (Z.of_nat i) req0))
      as [d | s h [b | d]] eqn:Hres.
    + rewrite (loop_transport_failure st c method endpoint u fuel
                 (Z.of_nat i) rd le req0 Hc d Hres).
      rewrite snd_emit, fst_emit. cbn [app].
      rewrite count_sends_send, count_sends_sleep.
      replace (Z.of_nat i + 1) with (Z.of_nat (S i)) by lia.
      match goal with
      | |- context [attempts st c method endpoint u fuel (Z.of_nat (S i))
                      ?r ?l] =>
          destruct (IH (S i) fuel r l ltac:(lia) ltac:(lia))
            as (Hcount & (req & Hlast) & Hfst)
      end.
      rewrite Hcount, Hfst. split; [reflexivity |]. split; [| reflexivity].
      exists req. rewrite !last_cons, Hlast. reflexivity.
    + destruct He as (H2 & H401 & H404 & H422).
      destruct (decide (s = 429)) as [-> | H429].
      * rewrite (loop_rate_limited_retry st c method endpoint u fuel
                   (Z.of_nat i) rd le req0 Hc h b Hres) by lia.
        rewrite snd_emit, fst_emit. cbn [app].
        rewrite count_sends_send, count_sends_sleep.
        replace (Z.of_nat i + 1) with (Z.of_nat (S i)) by lia.
        match goal with
        | |- context [attempts st c method endpoint u fuel (Z.of_nat (S i))
                        ?r ?l] =>
            destruct (IH (S i) fuel r l ltac:(lia) ltac:(lia))
              as (Hcount & (req & Hlast) & Hfst)
        end.
        rewrite Hcount, Hfst. split; [reflexivity |]. split; [| reflexivity].
        exists req. rewrite !last_cons, Hlast. reflexivity.
      * rewrite (loop_other st c method endpoint u fuel (Z.of_nat i) rd le
                   req0 Hc s h b Hres
                   (other_status_intro s H2 H401 H404 H422 H429)).
        rewrite snd_emit, fst_emit. cbn [app].
        rewrite count_sends_send.
        replace (Z.of_nat i + 1) with (Z.of_nat (S i)) by lia.
        match goal with
        | |- context [attempts st c method endpoint u fuel (Z.of_nat (S i))
                        ?r ?l] =>
            destruct (IH (S i) fuel r l ltac:(lia) ltac:(lia))
              as (Hcount & (req & Hlast) & Hfst)
        end.
        rewrite Hcount, Hfst. split; [reflexivity |]. split; [| reflexivity].
        exists req. rewrite !last_cons, Hlast. reflexivity.
    + rewrite (loop_read_failure st c method endpoint u fuel (Z.of_nat i)
                 rd le req0 Hc s h d Hres).
      rewrite snd_emit, fst_emit. cbn [app].
      rewrite count_sends_send.
      replace (Z.of_nat i + 1) with (Z.of_nat (S i)) by lia.
      match goal with
      | |- context [attempts st c method endpoint u fuel (Z.of_nat (S i))
                      ?r ?l] =>
          destruct (IH (S i) fuel r l ltac:(lia) ltac:(lia))
            as (Hcount & (req & Hlast) & Hfst)
      end.
      rewrite Hcount, Hfst. split; [reflexivity |]. split; [| reflexivity].
      exists req. rewrite !last_cons, Hlast. reflexivity.
Qed.

(** C5. When the server answers an attempt with status 401, 404 or 422,
    the body of the answer being read, that attempt is the last one: the
    call makes no further attempt, whatever is left of the attempt budget,
    and returns the Authentication error for 401, NotFound of the endpoint
    for 404 and Validation of the response body for 422. The attempt
    answered so is attempt [k], the [k] attempts before it being answered
    in ways that are retried (none when [k] is 0: the call then makes
    exactly one attempt). The request is one that can be made: a valid
    method, a URL that parses, a body that marshals, and a budget above
    [k]. *)
Theorem terminal_statuses_not_retried (st : http.Stack) (c : Client)
    (method endpoint : string) (body : option Payload) (params : url.Values)
    (k : nat) (status : Z) (header : http.Header) (respBody : string) :
  http.validMethod (if String.eqb method "" then "GET" else method) = true ->
  http.parse_err st (fullURL c endpoint params) = None ->
  (forall d, body <> Some (Unsupported d)) ->
  Z.of_nat k < maxRetries c ->
  (forall i req, 0 <= i < Z.of_nat k ->
     match http.result (http.Do st i req) with
     | http.DoResp s _ (http.ReadOK _) =>
         ~ 200 <= s < 300 /\ s <> 401 /\ s <> 404 /\ s <> 422
     | _ => True
     end) ->
  (forall req,
     http.result (http.Do st (Z.of_nat k) req)
       = http.DoResp status header (http.ReadOK respBody)) ->
  status = 401 \/ status = 404 \/ status = 422 ->
  count_sends (snd (request st c method endpoint body params)) = S k /\
  (exists req,
     last (snd (request st c method endpoint body params))
       = Some (Send (Z.of_nat k) req
                 (http.DoResp status header (http.ReadOK respBody)))) /\
  (status = 401 ->
     fst (request st c method endpoint body params)
       = inr (NewAuthenticationError "invalid API key")) /\
  (status = 404 ->
     fst (request st c method endpoint body params)
       = inr (NewNotFoundError endpoint)) /\
  (status = 422 ->
     fst (request st c method endpoint body params)
       = inr (NewValidationError respBody)).
Proof.
  intros Hm Hu Hbody Hk Hearly Hterm Hs.
  destruct (request_cases st c method endpoint body params)
    as [(d & Hd & _) | (rd & E)].
  { exfalso. exact (Hbody d Hd). }
  rewrite E.
  destruct (terminal_after_retries_loop st c method endpoint _ k status header
              respBody Hm Hu Hearly Hterm Hs Hk k O
              (Z.to_nat (maxRetries c)) rd None ltac:(lia) ltac:(lia))
    as (Hcount & Hlast & Hfst).
  change (Z.of_nat 0) with 0 in Hcount, Hlast, Hfst.
  split; [exact Hcount |]. split; [exact Hlast |].
  rewrite Hfst. repeat split; intros ->; reflexivity.
Qed.

Lemma terminal_statuses_not_retried_witness :
  count_sends
    (snd (Get (scripted [http.DoResp 404 ∅ (http.ReadOK "no such agent")]
                 (http.DoResp 200 ∅ (http.ReadOK "{}")))
            sample_client "/agents/a1" ∅)) = 1%nat /\
  (exists req,
     last
       (snd (Get (scripted [http.DoResp 404 ∅ (http.ReadOK "no such agent")]
                    (http.DoResp 200 ∅ (http.ReadOK "{}")))
               sample_client "/agents/a1" ∅))
     = Some (Send 0 req (http.DoResp 404 ∅ (http.ReadOK "no such agent")))) /\
  fst (Get (scripted [http.DoResp 404 ∅ (http.ReadOK "no such agent")]
              (http.DoResp 200 ∅ (http.ReadOK "{}")))
         sample_client "/agents/a1" ∅)
    = inr (NewNotFoundError "/agents/a1").
Proof.
  destruct (terminal_statuses_not_retried
              (scripted [http.DoResp 404 ∅ (http.ReadOK "no such agent")]
                 (http.DoResp 200 ∅ (http.ReadOK "{}")))
              sample_client "GET" "/agents/a1" None ∅ 0 404 ∅
              "no such agent")
    as (Hcount & Hlast & _ & H404 & _).
  - vm_compute. reflexivity.
  - reflexivity.
  - intros d H. discriminate.
  - vm_compute. reflexivity.
  - intros i req Hi. lia.
  - intros req. reflexivity.
  - right. left. reflexivity.
  - split; [exact Hcount |]. split; [exact Hlast |].
    apply H404. reflexivity.
Defined.

(** ** Rate limited, then served *)

Lemma rate_limited_then_served_loop st c method endpoint u
    (k : nat) (ra : Z -> Z) (respBody : string) :
  http.validMethod (if String.eqb method "" then "GET" else method) = true ->
  http.parse_err st u = None ->
  (forall i req, 0 <= i < Z.of_nat k ->
     exists header b,
       http.result (http.Do st i req)
         = http.DoResp 429 header (http.ReadOK b) /\
       retryAfterOf header = ra i) ->
  (forall req, exists status header,
     http.result (http.Do st (Z.of_nat k) req)
       = http.DoResp status header (http.ReadOK respBody) /\
     200 <= status < 300) ->
  Z.of_nat k < maxRetries c ->
  forall j i fuel rd le,
    (i + j = k)%nat -> (j < fuel)%nat ->
    count_sends (snd (attempts st c method endpoint u fuel (Z.of_nat i) rd le))
      = S j /\
    sleeps (snd (attempts st c method endpoint u fuel (Z.of_nat i) rd le))
      = map (fun x : nat => Int64.mul (ra (Z.of_nat x)) time.Second)
          (seq i j) /\
    fst (attempts st c method endpoint u fuel (Z.of_nat i) rd le)
      = inl respBody.
Proof.
  intros Hm Hu Hlim Hok Hk.
  induction j as [|j IH]; intros i fuel rd le Hij Hfuel;
    (destruct fuel as [|fuel]; [lia |]);
    destruct (create_succeeds (http.parse_err st) method u rd Hm Hu)
      as (req0 & Hc).
  - replace i with k by lia.
    destruct (Hok (withHeaders c req0)) as (status & header & Hres & Hs).
    rewrite (loop_success st c method endpoint u fuel (Z.of_nat k) rd le req0
               Hc status header respBody Hres Hs).
    repeat split; reflexivity.
  - destruct (Hlim (Z.of_nat i) (withHeaders c req0) ltac:(lia))
      as (header & b & Hres & Hra).
    rewrite (loop_rate_limited_retry st c method endpoint u fuel (Z.of_nat i)
               rd le req0 Hc header b Hres) by lia.
    rewrite snd_emit, fst_emit. cbn [app].
    rewrite count_sends_send, count_sends_sleep. cbn [sleeps].
    replace (Z.of_nat i + 1) with (Z.of_nat (S i)) by lia.
    destruct (IH (S i) fuel
                (bytes.advance
                   (http.consumed (exchange st c (Z.of_nat i) req0)) <$> rd)
                le ltac:(lia) ltac:(lia)) as (Hcount & Hsleeps & Hfst).
    rewrite Hcount, Hsleeps, Hfst, Hra. repeat split; reflexivity.
Qed.

(** X9. When the first [k] attempts are answered 429 and attempt [k], still
    within the budget, is answered with a status from 200 to 299, the call
    makes exactly [k + 1] attempts, sleeps after each 429 for the
    [Retry-After] value of that response in seconds (in 64-bit arithmetic)
    and returns the body of the last response. *)
Theorem rate_limited_then_served (st : http.Stack) (c : Client)
    (method endpoint : string) (body : option Payload) (params : url.Values)
    (k : nat) (ra : Z -> Z) (respBody : string) :
  http.validMethod (if String.eqb method "" then "GET" else method) = true ->
  http.parse_err st (fullURL c endpoint params) = None ->
  (forall d, body <> Some (Unsupported d)) ->
  (forall i req, 0 <= i < Z.of_nat k ->
     exists header b,
       http.result (http.Do st i req)
         = http.DoResp 429 header (http.ReadOK b) /\
       retryAfterOf header = ra i) ->
  (forall req, exists status header,
     http.result (http.Do st (Z.of_nat k) req)
       = http.DoResp status header (http.ReadOK respBody) /\
     200 <= status < 300) ->
  Z.of_nat k < maxRetries c ->
  count_sends (snd (request st c method endpoint body params)) = S k /\
  sleeps (snd (request st c method endpoint body params))
    = map (fun i : nat => Int64.mul (ra (Z.of_nat i)) time.Second) (seq 0 k) /\
  fst (request st c method endpoint body params) = inl respBody.
Proof.
  intros Hm Hu Hbody Hlim Hok Hk.
  destruct (request_cases st c method endpoint body params)
    as [(d & Hd & _) | (rd & E)].
  { exfalso. exact (Hbody d Hd). }
  rewrite E.
  exact (rate_limited_then_served_loop st c method endpoint _ k ra respBody
           Hm Hu Hlim Hok Hk k O (Z.to_nat (maxRetries c)) rd None
           ltac:(lia) ltac:(lia)).
Qed.

Lemma rate_limited_then_served_witness :
  count_sends
    (snd (Get (scripted [http.DoResp 429 (retry_after "2") (http.ReadOK "");
                         http.DoResp 429 ∅ (http.ReadOK "")]
                 (http.DoResp 200 ∅ (http.ReadOK "done")))
            sample_client "/tasks" ∅)) = 3%nat /\
  sleeps
    (snd (Get (scripted [http.DoResp 429 (retry_after "2") (http.ReadOK "");
                         http.DoResp 429 ∅ (http.ReadOK "")]
                 (http.DoResp 200 ∅ (http.ReadOK "done")))
            sample_client "/tasks" ∅))
    = map (fun i : nat =>
             Int64.mul ((fun n => if n =? 0 then 2 else 1) (Z.of_nat i))
               time.Second)
        (seq 0 2) /\
  fst (Get (scripted [http.DoResp 429 (retry_after "2") (http.ReadOK "");
                      http.DoResp 429 ∅ (http.ReadOK "")]
              (http.DoResp 200 ∅ (http.ReadOK "done")))
         sample_client "/tasks" ∅) = inl "done".
Proof.
  apply (rate_limited_then_served
           (scripted [http.DoResp 429 (retry_after "2") (http.ReadOK "");
                      http.DoResp 429 ∅ (http.ReadOK "")]
              (http.DoResp 200 ∅ (http.ReadOK "done")))
           sample_client "GET" "/tasks" None ∅ 2
           (fun n => if n =? 0 then 2 else 1) "done").
  - vm_compute. reflexivity.
  - reflexivity.
  - intros d H. discriminate.
  - intros i req Hi.
    assert (Hcases : i = 0 \/ i = 1) by lia.
    destruct Hcases as [-> | ->].
    + exists (retry_after "2"), "". split; vm_compute; reflexivity.
    + exists ∅, "". split; vm_compute; reflexivity.
  - intros req. exists 200, ∅. split; [vm_compute; reflexivity | lia].
  - vm_compute. reflexivity.
Defined.

(** ** Witnesses for the properties of whole runs *)

Lemma sent_request_fixed_part_witness :
  http.Method (sample_request "POST" "/agents/a1/heartbeat" "") = "POST" /\
  http.Hdr (sample_request "POST" "/agents/a1/heartbeat" "")
    = http.Set_
        (http.Set_
           (http.Set_ ∅ "Authorization" ("Bearer " +:+ apiKey sample_client))
           "Content-Type" "application/json")
        "User-Agent" "blackroad-go/1.0.0".
Proof.
  apply (sent_request_fixed_part
           (scripted [http.DoResp 429 ∅ (http.ReadOK "slow down")]
              (http.DoResp 200 ∅ (http.ReadOK "{}")))
           sample_client "POST" "/agents/a1/heartbeat" (Some (Marshals "{}")) ∅
           [Send 0 (sample_request "POST" "/agents/a1/heartbeat" "{}")
              (http.DoResp 429 ∅ (http.ReadOK "slow down"));
            Sleep 1000000000]
           []
           1 (sample_request "POST" "/agents/a1/heartbeat" "")
           (http.DoResp 200 ∅ (http.ReadOK "{}"))).
  vm_compute. reflexivity.
Defined.

Lemma all_transport_failures_witness :
  count_sends
    (snd (Get (always (http.DoErr "connection refused"))
            sample_client "/health" ∅)) = Z.to_nat (maxRetries sample_client) /\
  sleeps
    (snd (Get (always (http.DoErr "connection refused"))
            sample_client "/health" ∅))
    = map (fun i : nat => 2 ^ Z.of_nat i * 1000000000)
        (seq 0 (Z.to_nat (maxRetries sample_client))) /\
  exists d,
    fst (Get (always (http.DoErr "connection refused"))
           sample_client "/health" ∅)
      = inr (NewConnectionError "request failed" (TransportFailure d)).
Proof.
  apply (all_transport_failures (always (http.DoErr "connection refused"))
           sample_client "GET" "/health" None ∅).
  - vm_compute. reflexivity.
  - reflexivity.
  - intros d H. discriminate.
  - intros n req. exists "connection refused". reflexivity.
  - vm_compute. split; discriminate.
Defined.

Lemma all_rate_limited_witness :
  count_sends
    (snd (Get (always (http.DoResp 429 (retry_after "5") (http.ReadOK "")))
            sample_client "/tasks" ∅)) = Z.to_nat (maxRetries sample_client) /\
  exists req header respBody,
    last (snd (Get (always (http.DoResp 429 (retry_after "5")
                              (http.ReadOK "")))
                 sample_client "/tasks" ∅))
      = Some (Send (maxRetries sample_client - 1) req
                (http.DoResp 429 header (http.ReadOK respBody))) /\
    fst (Get (always (http.DoResp 429 (retry_after "5") (http.ReadOK "")))
           sample_client "/tasks" ∅)
      = inr (NewRateLimitError (retryAfterOf header)).
Proof.
  apply (all_rate_limited
           (always (http.DoResp 429 (retry_after "5") (http.ReadOK "")))
           sample_client "GET" "/tasks" None ∅).
  - vm_compute. reflexivity.
  - reflexivity.
  - intros d H. discriminate.
  - intros n req. exists (retry_after "5"), "". reflexivity.
  - vm_compute. discriminate.
Defined.

(** ** What [NewClient] guarantees *)

(** X10. A client that was built has a non-empty API key, a timeout other
    than zero and a retry count other than zero. Its HTTP client is the one
    passed in the configuration, untouched, when there is one (the timeout
    of the configuration is then not applied to it), and otherwise a new one
    whose timeout is the client's. *)
Theorem constructed_client_invariants (env : os.Environ)
    (config : option ClientConfig) (c : Client) :
  NewClient env config = inl c ->
  apiKey c <> "" /\ timeout c <> 0 /\ maxRetries c <> 0 /\
  (HTTPClient (default zeroConfig config) = None ->
   http.Timeout (httpClient c) = timeout c) /\
  (forall h, HTTPClient (default zeroConfig config) = Some h ->
   httpClient c = h).
Proof.
  intros H. unfold NewClient in H. cbv zeta in H.
  set (cfg := default zeroConfig config) in *.
  destruct (String.eqb
              (if String.eqb (APIKey cfg) ""
               then os.Getenv env "BLACKROAD_API_KEY" else APIKey cfg) "")
    eqn:Ekey; [discriminate |].
  apply String.eqb_neq in Ekey.
  inversion H; subst c; clear H. cbn [apiKey timeout maxRetries httpClient].
  split; [exact Ekey |].
  split.
  { destruct (Z.eqb_spec (Timeout cfg) 0); [vm_compute; discriminate | assumption]. }
  split.
  { destruct (Z.eqb_spec (MaxRetries cfg) 0); [vm_compute; discriminate | assumption]. }
  split.
  - intros ->. reflexivity.
  - intros h ->. reflexivity.
Qed.

Lemma constructed_client_invariants_witness :
  NewClient staging_env (Some (keyed 5)) = inl staging_client /\
  apiKey staging_client <> "" /\ timeout staging_client <> 0 /\
  maxRetries staging_client <> 0 /\
  http.Timeout (httpClient staging_client) = timeout staging_client.
Proof.
  assert (H : NewClient staging_env (Some (keyed 5)) = inl staging_client)
    by (vm_compute; reflexivity).
  destruct (constructed_client_invariants staging_env (Some (keyed 5))
              staging_client H) as (Hk & Ht & Hm & Hdefault & _).
  split; [exact H |]. split; [exact Hk |]. split; [exact Ht |].
  split; [exact Hm |]. apply Hdefault. reflexivity.
Defined.

(** ** Separators between base address and endpoint *)

Lemma TrimSuffix_append (t suffix : string) :
  strings.TrimSuffix (t +:+ suffix) suffix = t.
Proof.
  unfold strings.TrimSuffix. rewrite HasSuffix_append, length_append.
  replace (String.length t + String.length suffix - String.length suffix)%nat
    with (String.length t) by lia.
  apply substring_append_l.
Qed.

Lemma append_nonempty_r (a b : string) : b <> "" -> a +:+ b <> "".
Proof.
  intros Hb E. apply (f_equal String.length) in E.
  rewrite length_append in E. destruct b; [congruence |]. simpl in E. lia.
Qed.

(** X11. One trailing separator on the configured base address makes no
    difference: a base address that does not end in a separator and the
    same address followed by one separator give the same client. *)
Theorem trailing_separator_irrelevant (env : os.Environ)
    (config : ClientConfig) (b : string) :
  b <> "" ->
  strings.HasSuffix b "/" = false ->
  NewClient env (Some (with_BaseURL (b +:+ "/") config))
  = NewClient env (Some (with_BaseURL b config)).
Proof.
  intros Hb Hs.
  assert (E1 : String.eqb (b +:+ "/") "" = false).
  { apply String.eqb_neq. apply append_nonempty_r. discriminate. }
  assert (E2 : String.eqb b "" = false) by (apply String.eqb_neq; exact Hb).
  assert (R1 : resolveBaseURL env (with_BaseURL (b +:+ "/") config)
               = b +:+ "/").
  { unfold resolveBaseURL. cbn [BaseURL with_BaseURL]. rewrite E1.
    cbv zeta. rewrite E1. reflexivity. }
  assert (R2 : resolveBaseURL env (with_BaseURL b config) = b).
  { unfold resolveBaseURL. cbn [BaseURL with_BaseURL]. rewrite E2.
    cbv zeta. rewrite E2. reflexivity. }
  unfold NewClient.
  change (default zeroConfig (Some (with_BaseURL (b +:+ "/") config)))
    with (with_BaseURL (b +:+ "/") config).
  change (default zeroConfig (Some (with_BaseURL b config)))
    with (with_BaseURL b config).
  cbv zeta. rewrite R1, R2.
  rewrite TrimSuffix_append, (TrimSuffix_absent b "/" Hs). reflexivity.
Qed.

Lemma trailing_separator_irrelevant_witness :
  NewClient ∅ (Some (with_BaseURL ("https://api.example.com/v2" +:+ "/")
                       (keyed 0)))
  = NewClient ∅ (Some (with_BaseURL "https://api.example.com/v2" (keyed 0))).
Proof.
  apply (trailing_separator_irrelevant ∅ (keyed 0)
           "https://api.example.com/v2").
  - discriminate.
  - vm_compute. reflexivity.
Defined.

Lemma TrimPrefix_slash (e : string) : strings.TrimPrefix ("/" +:+ e) "/" = e.
Proof.
  unfold strings.TrimPrefix, strings.HasPrefix.
  rewrite append_cons, append_nil_l. simpl.
  rewrite Nat.sub_0_r. destruct e; [reflexivity |]. apply substring_all.
Qed.

(** X12. The leading separator of an endpoint is optional: an endpoint
    that does not start with a separator and the same endpoint after one
    separator address the same URL, the base address, one separator and the
    endpoint. *)
Theorem leading_separator_optional (c : Client) (endpoint : string)
    (params : url.Values) :
  strings.HasPrefix endpoint "/" = false ->
  fullURL c ("/" +:+ endpoint) params = fullURL c endpoint params /\
  fullURL c endpoint ∅ = baseURL c +:+ "/" +:+ endpoint.
Proof.
  intros H. unfold fullURL. rewrite TrimPrefix_slash.
  unfold strings.TrimPrefix. rewrite H. split; reflexivity.
Qed.

Lemma leading_separator_optional_witness :
  fullURL sample_client ("/" +:+ "tasks/t1") ∅
    = fullURL sample_client "tasks/t1" ∅ /\
  fullURL sample_client "tasks/t1" ∅
    = baseURL sample_client +:+ "/" +:+ "tasks/t1".
Proof.
  apply (leading_separator_optional sample_client "tasks/t1" ∅).
  vm_compute. reflexivity.
Defined.

(** ** The bytes of a query string *)

Lemma upperhex_escaped (n : N) :
  (n < 16)%N -> escaped_byte (url.upperhex n) = true.
Proof.
  intros H.
  assert (Hall : forallb
                   (fun k => escaped_byte (url.upperhex (N.of_nat k)))
                   (seq 0 16) = true) by (vm_compute; reflexivity).
  rewrite forallb_forall in Hall.
  specialize (Hall (N.to_nat n)). rewrite N2Nat.id in Hall.
  apply Hall. apply in_seq. lia.
Qed.

Lemma QueryEscape_bytes (s : string) :
  forallb escaped_byte (list_ascii_of_string (url.QueryEscape s)) = true.
Proof.
  induction s as [|c s IH]; [reflexivity |].
  cbn [url.QueryEscape].
  destruct (url.shouldEscape c) eqn:Hesc.
  - destruct (Ascii.eqb c " ").
    + cbn [list_ascii_of_string forallb]. rewrite IH. reflexivity.
    + cbn [list_ascii_of_string forallb]. rewrite IH.
      pose proof (N_ascii_bounded c) as Hc.
      rewrite (upperhex_escaped (N_of_ascii c / 16)),
        (upperhex_escaped (N_of_ascii c mod 16)).
      * reflexivity.
      * apply N.mod_lt. discriminate.
      * apply N.Div0.div_lt_upper_bound. exact Hc.
  - cbn [list_ascii_of_string forallb]. rewrite IH.
    unfold escaped_byte. rewrite Hesc. reflexivity.
Qed.

Lemma list_ascii_of_append (a b : string) :
  list_ascii_of_string (a +:+ b)
  = list_ascii_of_string a ++ list_ascii_of_string b.
Proof.
  induction a as [|c a IH]; [reflexivity |].
  rewrite append_cons. cbn [list_ascii_of_string app]. now rewrite IH.
Qed.

Lemma escaped_is_query_byte (c : ascii) :
  escaped_byte c = true -> query_byte c = true.
Proof. intros H. unfold query_byte. rewrite H. reflexivity. Qed.

Lemma forallb_weaken {A} (P Q : A -> bool) (l : list A) :
  (forall x, P x = true -> Q x = true) ->
  forallb P l = true -> forallb Q l = true.
Proof.
  intros HPQ H. apply forallb_forall. intros x Hx.
  apply HPQ. revert x Hx. apply forallb_forall. exact H.
Qed.

Lemma concat_bytes (P : ascii -> bool) (sep : string) (l : list string) :
  forallb P (list_ascii_of_string sep) = true ->
  Forall (fun s => forallb P (list_ascii_of_string s) = true) l ->
  forallb P (list_ascii_of_string (String.concat sep l)) = true.
Proof.
  intros Hsep. induction 1 as [|x l Hx Hl IH]; [reflexivity |].
  destruct l as [|y l]; [exact Hx |].
  change (String.concat sep (x :: y :: l))
    with (x +:+ sep +:+ String.concat sep (y :: l)).
  rewrite !list_ascii_of_append, !forallb_app, Hx, Hsep, IH. reflexivity.
Qed.

(** X13. Whatever the keys and values, the query string [Encode] builds
    consists only of letters, digits, [-], [_], [.], [~], the [+] and [%] of
    escapes and the separators [&] and [=]: no space, [#], [?] or [/] can
    reach the URL through a key or a value. *)
Theorem query_string_bytes (v : url.Values) :
  forallb query_byte (list_ascii_of_string (url.Encode v)) = true /\
  query_byte " " = false /\ query_byte "#" = false /\
  query_byte "?" = false /\ query_byte "/" = false.
Proof.
  split; [| repeat split; reflexivity].
  rewrite Encode_pairs. apply concat_bytes; [reflexivity |].
  unfold query_pairs. apply Forall_forall. intros p Hp.
  apply list_elem_of_In, in_flat_map in Hp as (key & _ & Hp).
  apply in_map_iff in Hp as (value & <- & _).
  rewrite !list_ascii_of_append, !forallb_app.
  rewrite (forallb_weaken _ _ _ escaped_is_query_byte (QueryEscape_bytes key)).
  rewrite (forallb_weaken _ _ _ escaped_is_query_byte (QueryEscape_bytes value)).
  reflexivity.
Qed.

(** * The requests of the resource facades *)

(** ** Decimal numbers pass through the query string as they are *)

Ltac decide_escape :=
  repeat match goal with
    | |- context [url.shouldEscape ?c] =>
        let b := eval vm_compute in (url.shouldEscape c) in
        change (url.shouldEscape c) with b
    end.

Lemma QueryEscape_uint (u : Decimal.uint) :
  url.QueryEscape (NilEmpty.string_of_uint u) = NilEmpty.string_of_uint u.
Proof.
  induction u as [|u IH|u IH|u IH|u IH|u IH|u IH|u IH|u IH|u IH|u IH];
    cbn [NilEmpty.string_of_uint url.QueryEscape]; [reflexivity | ..];
    decide_escape; cbv iota; rewrite IH; reflexivity.
Qed.

Lemma QueryEscape_uint0 (u : Decimal.uint) :
  url.QueryEscape (NilZero.string_of_uint u) = NilZero.string_of_uint u.
Proof.
  destruct u; try apply QueryEscape_uint. reflexivity.
Qed.

Lemma QueryEscape_Itoa (n : Z) : url.QueryEscape (Itoa n) = Itoa n.
Proof.
  unfold Itoa. destruct n as [|p|p]; cbn [Z.to_int NilZero.string_of_int].
  - reflexivity.
  - apply QueryEscape_uint0.
  - cbn [url.QueryEscape]. decide_escape. cbv iota.
    rewrite QueryEscape_uint0. reflexivity.
Qed.

(** The query string of a single parameter. *)
Lemma Encode_singleton (key value : string) :
  url.Encode {[ key := [value] ]}
  = url.QueryEscape key +:+ "=" +:+ url.QueryEscape value.
Proof.
  rewrite Encode_pairs. unfold query_pairs, url.sorted_keys.
  rewrite map_to_list_singleton. cbn [map fst].
  change (merge_sort String.le [key]) with [key].
  cbn [flat_map]. rewrite lookup_singleton_eq. reflexivity.
Qed.

(** ** Listing agents and tasks *)





(** ** Querying the memory *)


(** X17. [MemoryAPI.Recent] never asks for a non-positive number of
    entries: it requests the memory with the single parameter limit, whose
    value is the decimal form of the limit given when that is positive and
    50 otherwise. *)
Theorem memory_recent_url (st : http.Stack) (c : Client) (limit : Z) :
  0 < (if limit <=? 0 then 50 else limit) /\
  MemoryAPI.Recent st c limit
    = Get st c "/memory"
        {[ "limit" := [Itoa (if limit <=? 0 then 50 else limit)] ]} /\
  fullURL c "/memory"
    {[ "limit" := [Itoa (if limit <=? 0 then 50 else limit)] ]}
    = baseURL c +:+ "/memory?limit="
      +:+ Itoa (if limit <=? 0 then 50 else limit).
Proof.
  set (n := if limit <=? 0 then 50 else limit).
  assert (Hn : 0 < n).
  { unfold n. destruct (Z.leb_spec limit 0); lia. }
  split; [exact Hn |]. split.
  - unfold MemoryAPI.Recent, MemoryAPI.Query. fold n. f_equal.
    unfold MemoryAPI.queryParams. cbv zeta.
    cbn [MemoryAPI.Search MemoryAPI.Action MemoryAPI.Entity MemoryAPI.Tags
         MemoryAPI.Since MemoryAPI.Until MemoryAPI.Limit MemoryAPI.Offset
         String.eqb negb length Nat.ltb Nat.leb].
    apply Z.ltb_lt in Hn. rewrite Hn. cbn [Z.ltb Z.compare].
    unfold url.Set_. apply insert_empty.
  - unfold fullURL. rewrite map_size_singleton. cbn [Nat.ltb Nat.leb].
    rewrite Encode_singleton, QueryEscape_Itoa.
    rewrite !append_assoc. reflexivity.
Qed.

(** * Two more properties of the retry loop *)

(** ** Decimal [Retry-After] values *)

Lemma digits_uint_acc (u : Decimal.uint) : forall acc : positive,
  strconv.digits (NilEmpty.string_of_uint u) (Z.pos acc)
  = Some (Z.pos (Pos.of_uint_acc u acc)).
Proof.
  induction u as [|u IH|u IH|u IH|u IH|u IH|u IH|u IH|u IH|u IH|u IH];
    intros acc; cbn [NilEmpty.string_of_uint strconv.digits Pos.of_uint_acc];
    [reflexivity | ..];
    match goal with
    | |- context [strconv.digit ?c] =>
        let d := eval vm_compute in (strconv.digit c) in
        change (strconv.digit c) with d
    end; cbv iota; rewrite <- IH; f_equal; lia.
Qed.

Lemma digits_uint (u : Decimal.uint) :
  strconv.digits (NilEmpty.string_of_uint u) 0
  = Some (Z.of_N (Pos.of_uint u)).
Proof.
  induction u as [|u IH|u IH|u IH|u IH|u IH|u IH|u IH|u IH|u IH|u IH];
    cbn [NilEmpty.string_of_uint strconv.digits Pos.of_uint];
    [reflexivity | ..];
    match goal with
    | |- context [strconv.digit ?c] =>
        let d := eval vm_compute in (strconv.digit c) in
        change (strconv.digit c) with d
    end; cbv iota;
    first [ exact IH | apply (digits_uint_acc u) ].
Qed.

(** A string that is not empty and does not start with a sign is parsed
    as its digits. *)
Lemma Atoi_unsigned (c : ascii) (s : string) :
  c <> "-"%char -> c <> "+"%char ->
  strconv.Atoi (String c s)
  = match strconv.digits (String c s) 0 with
    | Some v => if Int64.in_range v then Some v else None
    | None => None
    end.
Proof.
  intros Hm Hp. unfold strconv.Atoi.
  destruct (Ascii.eqb_spec c "-"); [contradiction |].
  destruct (Ascii.eqb_spec c "+"); [contradiction |].
  destruct c as [[] [] [] [] [] [] [] []]; try reflexivity; contradiction.
Qed.

Lemma Atoi_negative (s : string) :
  strconv.Atoi (String "-" s)
  = match s with
    | EmptyString => None
    | _ =>
        match strconv.digits s 0 with
        | Some v => if Int64.in_range (- v) then Some (- v) else None
        | None => None
        end
    end.
Proof. reflexivity. Qed.

Lemma uint_starts_with_digit (u : Decimal.uint) :
  u <> Decimal.Nil ->
  exists c s, NilEmpty.string_of_uint u = String c s /\
              c <> "-"%char /\ c <> "+"%char.
Proof.
  intros H. destruct u; [contradiction | ..];
    cbn [NilEmpty.string_of_uint]; eexists _, _;
    (split; [reflexivity | split; discriminate]).
Qed.

Lemma string_of_uint_nonnil (u : Decimal.uint) :
  u <> Decimal.Nil ->
  NilZero.string_of_uint u = NilEmpty.string_of_uint u.
Proof. intros H. destruct u; [contradiction | reflexivity..]. Qed.

Lemma Atoi_Itoa (n : Z) :
  Int64.in_range n = true -> strconv.Atoi (Itoa n) = Some n.
Proof.
  intros Hr. unfold Itoa. destruct n as [|p|p].
  - reflexivity.
  - cbn [Z.to_int NilZero.string_of_int].
    pose proof (DecimalPos.Unsigned.to_uint_nonnil p) as Hnil.
    rewrite (string_of_uint_nonnil _ Hnil).
    destruct (uint_starts_with_digit (Pos.to_uint p) Hnil)
      as (c & s & Es & Hm & Hp).
    rewrite Es, (Atoi_unsigned c s Hm Hp), <- Es, digits_uint,
      DecimalPos.Unsigned.of_to.
    cbn [Z.of_N]. rewrite Hr. reflexivity.
  - cbn [Z.to_int NilZero.string_of_int].
    pose proof (DecimalPos.Unsigned.to_uint_nonnil p) as Hnil.
    rewrite (string_of_uint_nonnil _ Hnil), Atoi_negative.
    destruct (uint_starts_with_digit (Pos.to_uint p) Hnil)
      as (c & s & Es & Hm & Hp).
    rewrite Es. cbv iota.
    rewrite <- Es, digits_uint, DecimalPos.Unsigned.of_to.
    cbn [Z.of_N]. change (- Z.pos p) with (Z.neg p).
    rewrite Hr. reflexivity.
Qed.

(** X18. A Retry-After header that holds the decimal form of an integer
    of the 64-bit range is read as that integer: the default of 1 does not
    apply, and zero and negative values are taken as they are. *)
Theorem decimal_retry_after_is_read (n : Z) :
  Int64.in_range n = true ->
  retryAfterOf (retry_after (Itoa n)) = n.
Proof.
  intros Hr. apply retryAfterOf_parsed.
  unfold retry_after, http.Get, http.Set_. rewrite lookup_insert_eq.
  apply Atoi_Itoa. exact Hr.
Qed.

Lemma decimal_retry_after_is_read_witness :
  retryAfterOf (retry_after (Itoa 0)) = 0 /\
  retryAfterOf (retry_after (Itoa (-30))) = -30.
Proof.
  split.
  - apply (decimal_retry_after_is_read 0). reflexivity.
  - apply (decimal_retry_after_is_read (-30)). reflexivity.
Defined.

(** ** The exhaustion error *)

Lemma classify_not_exhausted endpoint res :
  classify endpoint res <> inr ExhaustedError.
Proof.
  destruct res as [d | status header [respBody | d]]; cbn [classify];
    try discriminate.
  repeat match goal with
         | |- (if ?b then _ else _) <> _ => destruct b
         end; discriminate.
Qed.

(** X19. The plain error "max retries exceeded" is returned only by a
    client whose retry count is zero or negative, and then without any
    send or sleep: with a budget of at least one attempt a call never ends
    in it, since every attempt that does not return records an error of
    its own. *)
Theorem exhaustion_only_without_budget (st : http.Stack) (c : Client)
    (method endpoint : string) (body : option Payload) (params : url.Values) :
  fst (request st c method endpoint body params) = inr ExhaustedError ->
  maxRetries c <= 0 /\
  snd (request st c method endpoint body params) = [].
Proof.
  intros H.
  destruct (count_sends (snd (request st c method endpoint body params)))
    as [|cnt] eqn:Hcnt.
  2: { exfalso.
       destruct (last_send_split
                   (snd (request st c method endpoint body params))
                   ltac:(lia))
         as (pre & m & req & res & post & Hsplit & Hquiet).
       pose proof (last_send_decides _ _ _ _ _ _ _ _ _ _ _ Hsplit Hquiet)
         as Hcl.
       rewrite H in Hcl. symmetry in Hcl.
       exact (classify_not_exhausted _ _ Hcl). }
  destruct (request_cases st c method endpoint body params)
    as [(d & _ & E) | (rd & E)]; rewrite E in H, Hcnt |- *.
  { discriminate. }
  destruct (Z.to_nat (maxRetries c)) as [|k] eqn:Ek.
  { split; [lia | rewrite loop_O; reflexivity]. }
  exfalso.
  destruct (loop_shape st c method endpoint (fullURL c endpoint params)
              k 0 rd None)
    as [(err & _ & E') | (req0 & Hc & _)].
  - rewrite E' in H. discriminate.
  - destruct (loop_starts_with_send st c method endpoint _ k 0 rd None req0 Hc)
      as (r & req & res & post & E').
    rewrite E' in Hcnt. cbn [snd] in Hcnt. rewrite count_sends_send in Hcnt.
    discriminate.
Qed.

Lemma exhaustion_only_without_budget_witness :
  fst (Get (always (http.DoResp 200 ∅ (http.ReadOK "ok")))
         (with_maxRetries (-1) sample_client) "/health" ∅)
    = inr ExhaustedError /\
  maxRetries (with_maxRetries (-1) sample_client) <= 0 /\
  snd (Get (always (http.DoResp 200 ∅ (http.ReadOK "ok")))
         (with_maxRetries (-1) sample_client) "/health" ∅) = [].
Proof.
  assert (H : fst (Get (always (http.DoResp 200 ∅ (http.ReadOK "ok")))
                     (with_maxRetries (-1) sample_client) "/health" ∅)
              = inr ExhaustedError) by (vm_compute; reflexivity).
  split; [exact H |].
  exact (exhaustion_only_without_budget _ _ _ _ _ _ H).
Defined.

(** * The Ruby client *)

(** ** Construction *)

(** X20. Constructing the Ruby client raises the client's own
    Authentication error, the one asking for a key, exactly when no API key
    is passed and the environment variable BLACKROAD_API_KEY is not set; it
    raises no other error of the client's own. A key that is passed or set
    is never refused, whatever it is, the empty string included:
    construction then returns a client with that key, unless building the
    Faraday connection raises, and then that exception is what the caller
    gets. *)
Theorem ruby_credential_required
    (Faraday_new : Ruby.Client -> option (string * string))
    (ENV : gmap string string)
    (api_key base_url : option string) (timeout max_retries : option Z) :
  ((exists e,
      Ruby.initialize Faraday_new ENV api_key base_url timeout max_retries
      = Ruby.Raises e) <->
   api_key = None /\ ENV !! "BLACKROAD_API_KEY" = None) /\
  (forall e,
     Ruby.initialize Faraday_new ENV api_key base_url timeout max_retries
     = Ruby.Raises e ->
     e = Ruby.new_AuthenticationError
           "API key required. Set BLACKROAD_API_KEY environment variable or pass api_key.") /\
  (forall key,
     api_key = Some key \/
     (api_key = None /\ ENV !! "BLACKROAD_API_KEY" = Some key) ->
     exists c,
       Ruby.api_key c = key /\
       match Faraday_new c with
       | None =>
           Ruby.initialize Faraday_new ENV api_key base_url timeout
             max_retries = Ruby.Returns c
       | Some (exception, detail) =>
           Ruby.initialize Faraday_new ENV api_key base_url timeout
             max_retries = Ruby.RaisesOther exception detail
       end).
Proof.
  unfold Ruby.initialize. cbv zeta.
  split; [| split].
  - destruct api_key as [k |]; cbn [Ruby.or_else].
    + split; [| intros (Hk & _); discriminate].
      intros (e & He). destruct (Faraday_new _) as [[ex d] |]; discriminate.
    + destruct (ENV !! "BLACKROAD_API_KEY") as [k |].
      * split; [| intros (_ & Hk); discriminate].
        intros (e & He). destruct (Faraday_new _) as [[ex d] |]; discriminate.
      * split; [intros _; split; reflexivity | intros _; eexists; reflexivity].
  - intros e He.
    destruct (Ruby.or_else api_key (ENV !! "BLACKROAD_API_KEY")).
    + destruct (Faraday_new _) as [[ex d] |]; discriminate.
    + inversion He. reflexivity.
  - intros key [-> | (-> & ->)]; cbn [Ruby.or_else];
      match goal with
      | |- context [Faraday_new (Ruby.Build_Client ?k ?b ?t ?m)] =>
          exists (Ruby.Build_Client k b t m)
      end;
      (split; [reflexivity |]);
      destruct (Faraday_new _) as [[ex d] |]; reflexivity.
Qed.

(** ** Responses *)

Lemma HasPrefix_after_slash (e : string) :
  strings.HasPrefix ("/" +:+ e) "/" = true.
Proof.
  unfold strings.HasPrefix. rewrite append_cons, append_nil_l.
  destruct e; reflexivity.
Qed.

Lemma request_path_starts_with_slash (endpoint : string) :
  strings.HasPrefix (Ruby.request_path endpoint) "/" = true.
Proof.
  unfold Ruby.request_path.
  destruct (strings.HasPrefix endpoint "/") eqn:E;
    [exact E | apply HasPrefix_after_slash].
Qed.

Section RubyResponses.

Variables (J : Type) (JSON_parse : string -> option J) (to_i : string -> Z).

(** X21. For a response whose status is not in 200..299 the Ruby
    [handle_response] always raises one of the client's errors, and the
    status code that error carries is the status of the response. For a 429
    the error is the RateLimit error; its retry_after is 1 only when the
    response has no Retry-After header and is otherwise whatever [to_i]
    makes of the header. *)
Theorem ruby_error_carries_status (response : Ruby.Response)
    (endpoint : string) :
  Ruby.success response = false ->
  (exists e,
     Ruby.handle_response J JSON_parse to_i response endpoint = Ruby.Raises e /\
     Ruby.status_code (Ruby.base e) = Some (Ruby.status response)) /\
  (Ruby.status response = 429 ->
   Ruby.handle_response J JSON_parse to_i response endpoint
   = Ruby.Raises
       (Ruby.new_RateLimitError
          match Ruby.headers response !! "Retry-After" with
          | Some header => to_i header
          | None => 1
          end)).
Proof.
  intros Hs. unfold Ruby.handle_response. rewrite Hs.
  split.
  - destruct (Z.eqb_spec (Ruby.status response) 401) as [E | _];
      [eexists; split; [reflexivity | rewrite E; reflexivity] |].
    destruct (Z.eqb_spec (Ruby.status response) 404) as [E | _];
      [eexists; split; [reflexivity | rewrite E; reflexivity] |].
    destruct (Z.eqb_spec (Ruby.status response) 422) as [E | _];
      [eexists; split; [reflexivity | rewrite E; reflexivity] |].
    destruct (Z.eqb_spec (Ruby.status response) 429) as [E | _];
      [eexists; split; [reflexivity | rewrite E; reflexivity] |].
    eexists; split; reflexivity.
  - intros E. rewrite E. cbn [Z.eqb Pos.eqb]. cbv zeta.
    destruct (Ruby.headers response !! "Retry-After"); reflexivity.
Qed.

Variable connection_send :
  string -> string -> option (list (string * string)) -> option string ->
  Ruby.SendResult.

(** X22. A call of the Ruby client returns a value only when the
    connection came back with a response whose status is in 200..299 and
    whose body [JSON.parse] accepts; the value is the parsed body. The
    request went to the path of [request_path], which starts with a
    separator. *)
Theorem ruby_returns_only_parsed_2xx (method endpoint : string)
    (params : option (list (string * string))) (body : option Ruby.Json)
    (value : J) :
  Ruby.request J JSON_parse to_i connection_send method endpoint params body
    = Ruby.Returns value ->
  exists params' body' response,
    connection_send method (Ruby.request_path endpoint) params' body'
      = Ruby.Responded response /\
    strings.HasPrefix (Ruby.request_path endpoint) "/" = true /\
    Ruby.success response = true /\
    JSON_parse (Ruby.body response) = Some value.
Proof.
  unfold Ruby.request. cbv zeta. intros H.
  pose proof (request_path_starts_with_slash endpoint) as Hpath.
  destruct body as [[text | detail] |]; try discriminate;
    match type of H with
    | match connection_send ?m ?p ?q ?b with _ => _ end = _ =>
        destruct (connection_send m p q b) as [response | d | d | ex d] eqn:Es;
          try discriminate;
          exists q, b, response
    end;
    (split; [exact Es |]; split; [exact Hpath |]);
    unfold Ruby.handle_response in H;
    (destruct (Ruby.success response);
     [ destruct (JSON_parse (Ruby.body response)) as [v |];
         [inversion H; subst; split; reflexivity | discriminate]
     | repeat match type of H with
              | (if ?b then _ else _) = _ => destruct b
              end; discriminate ]).
Qed.

End RubyResponses.

Lemma ruby_error_carries_status_witness :
  exists e,
    Ruby.handle_response unit (fun _ => None) (fun _ => 0)
      {| Ruby.status := 503; Ruby.headers := ∅;
         Ruby.body := "unavailable" |} "/health"
    = Ruby.Raises e /\
    Ruby.status_code (Ruby.base e) = Some 503.
Proof.
  apply (ruby_error_carries_status unit (fun _ => None) (fun _ => 0)
           {| Ruby.status := 503; Ruby.headers := ∅;
              Ruby.body := "unavailable" |} "/health").
  reflexivity.
Defined.

Lemma ruby_returns_only_parsed_2xx_witness :
  exists params' body' response,
    Ruby.sample_connection "get" (Ruby.request_path "agents") params' body'
    = Ruby.Responded response /\
    strings.HasPrefix (Ruby.request_path "agents") "/" = true /\
    Ruby.success response = true /\
    Some (Ruby.body response) = Some "[]".
Proof.
  apply (ruby_returns_only_parsed_2xx string Some (fun _ => 0)
           Ruby.sample_connection "get" "agents" (Some []) None "[]").
  reflexivity.
Defined.

(** ** Paths *)

(** X23. The path the Ruby client asks for always starts with a
    separator; an endpoint that already has one is left as it is, so
    computing the path is idempotent, and an endpoint without one and the
    same endpoint after a separator give the same path. *)
Theorem ruby_path_normal_form (endpoint : string) :
  strings.HasPrefix (Ruby.request_path endpoint) "/" = true /\
  Ruby.request_path (Ruby.request_path endpoint) = Ruby.request_path endpoint /\
  Ruby.request_path ("/" +:+ endpoint) = "/" +:+ endpoint /\
  (strings.HasPrefix endpoint "/" = false ->
   Ruby.request_path endpoint = Ruby.request_path ("/" +:+ endpoint)).
Proof.
  pose proof HasPrefix_after_slash as Hslash.
  pose proof (request_path_starts_with_slash endpoint) as Hpath.
  split; [exact Hpath |]. split.
  { unfold Ruby.request_path at 1. rewrite Hpath. reflexivity. }
  split.
  { unfold Ruby.request_path. rewrite Hslash. reflexivity. }
  intros E. unfold Ruby.request_path. rewrite E, Hslash. reflexivity.
Qed.
